(** * Estimation harness of the Think Stats notebook [chap08ex.ipynb]

    A shallow embedding of the notebook's Python functions ([RMSE],
    [MeanError], [Estimate1] .. [Estimate4], [SimulateSample],
    [SimulateGame], [ManyGames]) together with the handful of numpy
    routines they call, and the properties of the harness proved on it.

    The notebook is duck-typed over its numbers.  The embedding keeps that:
    every function is written once over a class [Scalar] of arithmetic
    operations, and is then read at two carriers,
    - [float] (IEEE 754 binary64, the kernel's primitive floats), which is
      what numpy's [float64] computes, NaN and rounding included, and which
      evaluates;
    - [R], exact real arithmetic, the reading under which the algebraic
      statements about the harness are meant.

    [RMSE] and [MeanError] are also given as calls, with what can raise in
    them: Python's own [float] raises [OverflowError] where a numpy scalar
    overflows to an infinity. *)

From Stdlib Require Import String.
From Stdlib Require Import List Permutation Arith ZArith Lia.
From Stdlib Require Import Reals Lra.
From Stdlib Require Import Floats.
From Stdlib Require Uint63.
Import ListNotations.

Set Implicit Arguments.

(** ** Scalars *)

(** The arithmetic the notebook uses on its numbers: [+], [-], [*], [/],
    [np.sqrt], the conversion of a count ([len], an [int] literal) and the
    comparison [>]. *)
Class Scalar (T : Type) : Type := {
  s_add : T -> T -> T;
  s_sub : T -> T -> T;
  s_mul : T -> T -> T;
  s_div : T -> T -> T;
  s_sqrt : T -> T;
  s_of_nat : nat -> T;
  s_gtb : T -> T -> bool
}.

Declare Scope scalar_scope.
Delimit Scope scalar_scope with sc.
Infix "+" := s_add : scalar_scope.
Infix "-" := s_sub : scalar_scope.
Infix "*" := s_mul : scalar_scope.
Infix "/" := s_div : scalar_scope.
Infix ">?" := s_gtb (at level 70, no associativity) : scalar_scope.

(** Exact real arithmetic.  [/] is the total division of [R]; a statement
    read at this carrier says something about the program only where no
    division by zero occurs. *)
#[export] Instance Scalar_R : Scalar R := {
  s_add := Rplus;
  s_sub := Rminus;
  s_mul := Rmult;
  s_div := Rdiv;
  s_sqrt := R_sqrt.sqrt;
  s_of_nat := INR;
  s_gtb := fun x y => if Rgt_dec x y then true else false
}.

(** binary64, round to nearest even: numpy's [float64], the type of every
    estimate the experiments make ([np.mean], [np.var] and a quotient by
    one of them all give [float64] scalars).  A division by zero or an
    overflow gives an infinity or NaN, as numpy's arithmetic does (it
    warns, and does not raise). *)
#[export] Instance Scalar_float : Scalar PrimFloat.float := {
  s_add := PrimFloat.add;
  s_sub := PrimFloat.sub;
  s_mul := PrimFloat.mul;
  s_div := PrimFloat.div;
  s_sqrt := PrimFloat.sqrt;
  s_of_nat := fun n => PrimFloat.of_uint63 (Uint63.of_Z (Z.of_nat n));
  s_gtb := fun x y => PrimFloat.ltb y x
}.

(** ** The numpy routines the notebook calls *)

Module np.
Section Numpy.
Context {T : Type} `{Scalar T}.
Local Open Scope scalar_scope.

(** [np.add.reduce]: the sum of an array, from the additive identity.
    numpy adds long arrays pairwise; the sums agree in exact arithmetic,
    and on arrays of fewer than eight elements they are this very loop. *)
Definition sum (a : list T) : T := fold_left s_add a (s_of_nat 0).

(** [np.mean(a)]: [umr_sum(arr) / rcount], with [rcount] the number of
    items.  An empty [a] is not refused: the quotient [0.0 / 0] is
    computed (and a RuntimeWarning issued). *)
Definition mean (a : list T) : T := sum a / s_of_nat (length a).

(** [np.var(a, ddof)]: the mean is subtracted from every item, the
    deviations are multiplied by themselves and summed, and the sum is
    divided by [max(rcount - ddof, 0)]. *)
Definition var (ddof : nat) (a : list T) : T :=
  let arrmean := sum a / s_of_nat (length a) in
  let x := map (fun a_i => a_i - arrmean) a in
  let x := map (fun d => d * d) x in
  sum x / s_of_nat (length a - ddof).

(** [np.sqrt]. *)
Definition sqrt (x : T) : T := s_sqrt x.
End Numpy.
End np.

(** ** Summary statistics *)

Section Summary.
Context {T : Type} `{Scalar T}.
Local Open Scope scalar_scope.

(** [x ** 2] on a numpy scalar is [np.square x], the product [x * x]; on
    the [int] goal counts of [ManyGames] it is the exact square. *)
Definition square (x : T) : T := x * x.

(** [def RMSE(estimates, actual)] *)
Definition RMSE (estimates : list T) (actual : T) : T :=
  let e2 := map (fun estimate => square (estimate - actual)) estimates in
  let mse := np.mean e2 in
  np.sqrt mse.

(** [def MeanError(estimates, actual)] *)
Definition MeanError (estimates : list T) (actual : T) : T :=
  let errors := map (fun estimate => estimate - actual) estimates in
  np.mean errors.
End Summary.

(** ** Python plumbing *)

(** [range(start, stop)] *)
Definition range (start stop : Z) : list Z :=
  map (fun k => (start + Z.of_nat k)%Z) (seq 0 (Z.to_nat (stop - start))).

(** [for i in idx: s = body i s] *)
Definition for_in {I S : Type} (idx : list I) (body : I -> S -> S) (s : S) : S :=
  fold_left (fun s i => body i s) idx s.

(** [n] successive draws from a generator whose state is threaded through:
    the comprehension [[draw() for _ in range(n)]], and the way numpy fills
    an array of [n] variates. *)
Fixpoint draw_n {A G : Type} (draw : G -> A * G) (n : nat) (g : G) : list A * G :=
  match n with
  | O => ([], g)
  | S k =>
      let (x, g1) := draw g in
      let (xs, g2) := draw_n draw k g1 in
      (x :: xs, g2)
  end.

(** What a cell writes with [print]. *)
Inductive line (T : Type) : Type :=
| Text (s : string)
| Labelled (s : string) (v : T).
Arguments Text {T} s.
Arguments Labelled {T} s v.

(** A Python call returns a value or raises.  [InvalidInput] is the one
    kind of error the description of the harness names; [OverflowError]
    is what Python's own [float] raises when a power overflows. *)
Inductive error : Type := InvalidInput | OverflowError.

Inductive outcome (A : Type) : Type :=
| Returns (v : A)
| Raises (e : error).
Arguments Returns {A} v.
Arguments Raises {A} e.

(** ** The experiments *)

Section Harness.
Context {T : Type} `{Scalar T}.
Local Open Scope scalar_scope.

(** The state of the [random] module's hidden generator and of numpy's
    global [RandomState]; each variate drawn advances one of them. *)
Variables PyRandom NpRandom : Type.

(** [random.gauss(mu, sigma)], [random.expovariate(lambd)] *)
Variable random_gauss : T -> T -> PyRandom -> T * PyRandom.
Variable random_expovariate : T -> PyRandom -> T * PyRandom.

(** One variate of [np.random.normal(loc, scale, size)] and of
    [np.random.exponential(scale, size)]. *)
Variable np_random_normal : T -> T -> NpRandom -> T * NpRandom.
Variable np_random_exponential : T -> NpRandom -> T * NpRandom.

(** [np.median], [thinkstats2.Median] and the constant [np.log(2)]. *)
Variable np_median : list T -> T.
Variable thinkstats2_Median : list T -> T.
Variable np_log_2 : T.

(** *** Estimate1 *)

(** One pass of the loop of [Estimate1], on [(means, medians)] and the
    generator. *)
Definition Estimate1_body (n : nat) (mu sigma : T)
    (s : list T * list T * PyRandom) : list T * list T * PyRandom :=
  let '(means, medians, g) := s in
  let (xs, g) := draw_n (random_gauss mu sigma) n g in
  let xbar := np.mean xs in
  let median := np_median xs in
  (means ++ [xbar], medians ++ [median], g).

Definition Estimate1_loop (n iters : nat) (g : PyRandom)
  : list T * list T * PyRandom :=
  let mu := s_of_nat 0 in
  let sigma := s_of_nat 1 in
  for_in (range 0 (Z.of_nat iters)) (fun _ => Estimate1_body n mu sigma)
         ([], [], g).

(** [def Estimate1(n=7, iters=1000)]: what it prints, and the generator
    it leaves behind. *)
Definition Estimate1 (n iters : nat) (g : PyRandom) : list (line T) * PyRandom :=
  let mu := s_of_nat 0 in
  let '(means, medians, g) := Estimate1_loop n iters g in
  ([Text "Experiment 1";
    Labelled "rmse xbar" (RMSE means mu);
    Labelled "rmse median" (RMSE medians mu)], g).

(** *** Estimate2 *)

Definition Estimate2_body (n : nat) (mu sigma : T)
    (s : list T * list T * PyRandom) : list T * list T * PyRandom :=
  let '(estimates1, estimates2, g) := s in
  let (xs, g) := draw_n (random_gauss mu sigma) n g in
  let biased := np.var 0 xs in
  let unbiased := np.var 1 xs in
  (estimates1 ++ [biased], estimates2 ++ [unbiased], g).

Definition Estimate2_loop (n iters : nat) (g : PyRandom)
  : list T * list T * PyRandom :=
  let mu := s_of_nat 0 in
  let sigma := s_of_nat 1 in
  for_in (range 0 (Z.of_nat iters)) (fun _ => Estimate2_body n mu sigma)
         ([], [], g).

(** [def Estimate2(n=7, iters=1000)] *)
Definition Estimate2 (n iters : nat) (g : PyRandom) : list (line T) * PyRandom :=
  let sigma := s_of_nat 1 in
  let '(estimates1, estimates2, g) := Estimate2_loop n iters g in
  ([Labelled "mean error biased" (MeanError estimates1 (square sigma));
    Labelled "mean error unbiased" (MeanError estimates2 (square sigma))], g).

(** *** SimulateSample *)

Definition SimulateSample_body (mu sigma : T) (n : nat)
    (s : list T * NpRandom) : list T * NpRandom :=
  let '(xbars, g) := s in
  let (xs, g) := draw_n (np_random_normal mu sigma) n g in
  let xbar := np.mean xs in
  (xbars ++ [xbar], g).

(** [def SimulateSample(mu=90, sigma=7.5, n=9, iters=1000)] *)
Definition SimulateSample (mu sigma : T) (n iters : nat) (g : NpRandom)
  : list T * NpRandom :=
  for_in (range 0 (Z.of_nat iters)) (fun _ => SimulateSample_body mu sigma n)
         ([], g).

(** *** Estimate3 and Estimate4 *)

(** The two rate estimates taken from one sample: [L = 1 / np.mean(xs)]
    and [Lm = np.log(2) / thinkstats2.Median(xs)]. *)
Definition Estimate3_L (xs : list T) : T := s_of_nat 1 / np.mean xs.
Definition Estimate3_Lm (xs : list T) : T := np_log_2 / thinkstats2_Median xs.

Definition Estimate3_body (n : nat) (lam : T)
    (s : list T * list T * NpRandom) : list T * list T * NpRandom :=
  let '(means, medians, g) := s in
  let (xs, g) := draw_n (np_random_exponential (s_of_nat 1 / lam)) n g in
  let L := Estimate3_L xs in
  let Lm := Estimate3_Lm xs in
  (means ++ [L], medians ++ [Lm], g).

Definition Estimate3_loop (n iters : nat) (g : NpRandom)
  : list T * list T * NpRandom :=
  let lam := s_of_nat 2 in
  for_in (range 0 (Z.of_nat iters)) (fun _ => Estimate3_body n lam)
         ([], [], g).

(** [def Estimate3(n=7, iters=1000)] *)
Definition Estimate3 (n iters : nat) (g : NpRandom) : list (line T) * NpRandom :=
  let lam := s_of_nat 2 in
  let '(means, medians, g) := Estimate3_loop n iters g in
  ([Labelled "rmse L" (RMSE means lam);
    Labelled "rmse Lm" (RMSE medians lam);
    Labelled "mean error L" (MeanError means lam);
    Labelled "mean error Lm" (MeanError medians lam)], g).

(** [def Estimate4(n, iters=1000)]: the loop of [Estimate3], returning the
    standard error of [L]. *)
Definition Estimate4 (n iters : nat) (g : NpRandom) : T * NpRandom :=
  let lam := s_of_nat 2 in
  let '(means, medians, g) := Estimate3_loop n iters g in
  let sterr := RMSE means lam in
  (sterr, g).

(** The cell after [Estimate4]: the standard error of [L] at each sample
    size of [range(1, 100)],
    [for i in range(1,100): stderr = Estimate4(i); errs.append(stderr)],
    and the two sequences it gives [thinkplot.Scatter] to plot against
    each other. *)
Definition errs_body (iters : nat) (i : Z) (s : list T * NpRandom)
  : list T * NpRandom :=
  let '(errs, g) := s in
  let (stderr, g) := Estimate4 (Z.to_nat i) iters g in
  (errs ++ [stderr], g).

Definition errs_loop (iters : nat) (g : NpRandom) : list T * NpRandom :=
  for_in (range 1 100) (errs_body iters) ([], g).

Definition errs_scatter (iters : nat) (g : NpRandom)
  : (list Z * list T) * NpRandom :=
  let (errs, g) := errs_loop iters g in
  ((range 1 100, errs), g).

(** *** SimulateGame and ManyGames *)

(** The [while True] loop of [SimulateGame].  Nothing in the code bounds
    the number of passes, so the embedding carries a bound [fuel] on the
    draws and answers [None] when it is used up. *)
Fixpoint SimulateGame_loop (fuel : nat) (lam : T) (goals : nat) (t : T)
    (g : PyRandom) : option (nat * PyRandom) :=
  match fuel with
  | O => None
  | S fuel' =>
      let (time_between_goals, g) := random_expovariate lam g in
      let t := t + time_between_goals in
      if t >? s_of_nat 1 then Some (goals, g)
      else SimulateGame_loop fuel' lam (goals + 1) t g
  end.

(** [def SimulateGame(lam)] *)
Definition SimulateGame (fuel : nat) (lam : T) (g : PyRandom)
  : option (nat * PyRandom) :=
  SimulateGame_loop fuel lam 0 (s_of_nat 0) g.

(** The loop of [ManyGames] over its index list. *)
Fixpoint ManyGames_loop (fuel : nat) (lam : T) (idx : list Z)
    (goals : list nat) (g : PyRandom) : option (list nat * PyRandom) :=
  match idx with
  | [] => Some (goals, g)
  | _ :: idx' =>
      match SimulateGame fuel lam g with
      | None => None
      | Some (L, g) => ManyGames_loop fuel lam idx' (goals ++ [L]) g
      end
  end.

Definition ManyGames_goals (fuel : nat) (lam : T) (g : PyRandom)
  : option (list nat * PyRandom) :=
  ManyGames_loop fuel lam (range 1 10000) [] g.

(** [def ManyGames(lam)]; the goal counts are Python [int]s, which
    [RMSE] and [MeanError] take as numbers. *)
Definition ManyGames (fuel : nat) (lam : T) (g : PyRandom)
  : option (list (line T) * PyRandom) :=
  match ManyGames_goals fuel lam g with
  | None => None
  | Some (goals, g) =>
      let goals := map s_of_nat goals in
      Some ([Labelled "rmse L" (RMSE goals lam);
             Labelled "mean error L" (MeanError goals lam)], g)
  end.
End Harness.

(** ** The summaries as Python calls *)

(** The binary64 numbers a caller can hand to [RMSE] and [MeanError] are
    numpy scalars or Python's own [float]s.  They compute alike but for
    [**]: numpy answers an overflow with an infinity and a warning, and
    Python's [float] raises [OverflowError] when the power of a finite
    number is not finite. *)
Inductive number_kind : Type := numpy_float64 | python_float.

(** [x ** 2] *)
Definition power2 (kind : number_kind) (x : float) : outcome float :=
  match kind with
  | numpy_float64 => Returns (square x)
  | python_float =>
      if (is_finite x && is_infinity (square x))%bool
      then Raises OverflowError
      else Returns (square x)
  end.

(** [[f(x) for x in l]]: the items are evaluated in order, and the first
    one that raises ends the comprehension. *)
Fixpoint comprehension {A B : Type} (f : A -> outcome B) (l : list A)
  : outcome (list B) :=
  match l with
  | [] => Returns []
  | x :: l' =>
      match f x with
      | Raises e => Raises e
      | Returns y =>
          match comprehension f l' with
          | Raises e => Raises e
          | Returns ys => Returns (y :: ys)
          end
      end
  end.

(** The call [RMSE(estimates, actual)]: the body of [RMSE] with what can
    raise in it.  [np.mean] and [np.sqrt] only warn. *)
Definition call_RMSE (kind : number_kind) (estimates : list float)
    (actual : float) : outcome float :=
  match comprehension (fun estimate => power2 kind (estimate - actual)%float)
                      estimates with
  | Raises e => Raises e
  | Returns e2 =>
      let mse := np.mean e2 in
      Returns (np.sqrt mse)
  end.

(** The call [MeanError(estimates, actual)]; a difference of floats of
    either kind does not raise. *)
Definition call_MeanError (kind : number_kind) (estimates : list float)
    (actual : float) : outcome float :=
  match comprehension (fun estimate => Returns (estimate - actual)%float)
                      estimates with
  | Raises e => Raises e
  | Returns errors => Returns (np.mean errors)
  end.

(** ** Vocabulary of the statements *)

(** The binary64 values of a given sign: a zero, a number or an infinity,
    and not NaN. *)
Definition SFsigned (sx : bool) (x : spec_float) : Prop :=
  match x with
  | S754_zero s | S754_infinity s | S754_finite s _ _ => s = sx
  | S754_nan => False
  end.

(** The binary64 values that are [>= 0]: the zeros, the positive numbers
    and [+infinity]. *)
Definition SFnonneg (x : spec_float) : Prop :=
  match x with
  | S754_zero _ => True
  | S754_infinity s | S754_finite s _ _ => s = false
  | S754_nan => False
  end.

(** [np.add.reduce] adds the items of an array in an order of its own
    choosing (singly, in blocks of eight partial sums, pairwise): [summed
    l s] says that [s] is the items of [l] added up in some order and
    grouping, from zeros. *)
Inductive summed : list float -> float -> Prop :=
| summed_zero : summed [] 0%float
| summed_neg_zero : summed [] (-0)%float
| summed_item (x : float) : summed [x] x
| summed_add (l1 l2 : list float) (s1 s2 : float) :
    summed l1 s1 -> summed l2 s2 -> summed (l1 ++ l2) (s1 + s2)%float
| summed_permuted (l l' : list float) (s : float) :
    Permutation l l' -> summed l s -> summed l' s.

(** The deviations whose square a Python [float] cannot hold. *)
Definition power2_overflows (x : float) : bool :=
  (is_finite x && is_infinity (square x))%bool.

(** The samples an experiment draws, in order: [iters] samples of [n]
    successive variates each, and the generator left after them. *)
Definition trials {T G : Type} (draw : G -> T * G) (n iters : nat) (g : G)
  : list (list T) * G :=
  draw_n (draw_n draw n) iters g.

(** The clock of a game after each goal: the running total of the times
    between goals, from [t]. *)
Fixpoint running_totals {T : Type} `{Scalar T} (t : T) (ds : list T) : list T :=
  match ds with
  | [] => []
  | d :: ds' => (t + d)%sc :: running_totals (t + d)%sc ds'
  end.

(** A generator that plays back recorded variates, and gives [2] once the
    record is exhausted; its state is what is left of the record. *)
Definition replay {T : Type} `{Scalar T} (g : list T) : T * list T :=
  match g with
  | [] => (s_of_nat 2, [])
  | x :: g' => (x, g')
  end.

(** A generator that gives the same variate at every draw, and one that
    gives the number of draws made so far; the state counts the draws. *)
Definition steady {T : Type} (x : T) (g : nat) : T * nat := (x, S g).

Definition counting {T : Type} `{Scalar T} (g : nat) : T * nat := (s_of_nat g, S g).

Section RealVocabulary.
Local Open Scope R_scope.

(** The sum of a finite sequence of reals. *)
Definition Rsum (xs : list R) : R := fold_right Rplus 0 xs.

Definition Rmean (xs : list R) : R := Rsum xs / INR (length xs).

(** The square root of the average squared deviation of the estimates
    from the true value. *)
Definition root_mean_squared_deviation (estimates : list R) (actual : R) : R :=
  R_sqrt.sqrt (1 / INR (length estimates)
               * Rsum (map (fun e => (e - actual) ^ 2) estimates)).

(** The sum of squared deviations from the mean, divided by [n] and by
    [n - 1]. *)
Definition population_variance (xs : list R) : R :=
  Rsum (map (fun x => (x - Rmean xs) ^ 2) xs) / INR (length xs).

Definition sample_variance (xs : list R) : R :=
  Rsum (map (fun x => (x - Rmean xs) ^ 2) xs) / (INR (length xs) - 1).

(** How many of the arrival times fall within the first game. *)
Definition goals_within_unit (arrivals : list R) : nat :=
  length (filter (fun a => if Rle_dec a 1 then true else false) arrivals).
End RealVocabulary.

(** * Properties *)

(** ** The embedding at work *)

Section Evaluation.
Local Open Scope float_scope.

Example RMSE_1_7 : RMSE [1; 7] 4 = 3.
Proof. reflexivity. Qed.

Example MeanError_1_2_6 : MeanError [1; 2; 6] 2 = 1.
Proof. reflexivity. Qed.

Example RMSE_exact_estimate : RMSE [90] 90 = 0 /\ MeanError [90] 90 = 0.
Proof. split; reflexivity. Qed.

Example var_1_3 : np.var 0 [1; 3] = 1 /\ np.var 1 [1; 3] = 2.
Proof. split; reflexivity. Qed.

(** One variate leaves no degree of freedom: [0.0 / 0]. *)
Example var_single : np.var 0 [5] = 0 /\ np.var 1 [5] = nan.
Proof. split; reflexivity. Qed.

Example range_1_5 : range 1 5 = [1; 2; 3; 4]%Z.
Proof. reflexivity. Qed.

Example range_backwards : range 3 1 = [].
Proof. reflexivity. Qed.

Example draw_three : draw_n counting 3 4%nat = ([4; 5; 6], 7%nat).
Proof. reflexivity. Qed.

(** Two iterations on samples of three: [0, 1, 2] and [3, 4, 5], with the
    middle item standing in for the median. *)
Example Estimate1_two_trials :
  Estimate1_loop (fun _ _ => counting) (fun xs => nth 1 xs 0) 3 2 0%nat
  = ([1; 4], [1; 4], 6%nat).
Proof. reflexivity. Qed.

Example Estimate2_one_trial :
  Estimate2_loop (fun _ _ => counting) 2 1 1%nat = ([0.25], [0.5], 3%nat).
Proof. reflexivity. Qed.

(** Goals at 0.25 and 0.75; the third, at 1.25, comes after the game. *)
Example game_of_two_goals :
  SimulateGame (fun _ => replay) 5 2 [0.25; 0.5; 0.5; 0.25] = Some (2%nat, [0.25]).
Proof. reflexivity. Qed.

(** A goal at exactly 1 still counts. *)
Example goal_on_the_whistle :
  SimulateGame (fun _ => replay) 5 2 [0.5; 0.5; 0.5] = Some (2%nat, []).
Proof. reflexivity. Qed.

Example game_out_of_draws : SimulateGame (fun _ => replay) 2 2 [0; 0; 3] = None.
Proof. reflexivity. Qed.
End Evaluation.

(** ** Loops and draws *)

Section Loops.
Context {A B G I : Type}.

Lemma range_length (start stop : Z) :
  length (range start stop) = Z.to_nat (stop - start).
Proof. unfold range. now rewrite length_map, length_seq. Qed.

Lemma range_count (k : nat) : length (range 0 (Z.of_nat k)) = k.
Proof. rewrite range_length. lia. Qed.

Lemma draw_n_length (draw : G -> A * G) (n : nat) (g : G) :
  length (fst (draw_n draw n g)) = n.
Proof.
  revert g. induction n as [|n IH]; intros g; simpl; [reflexivity|].
  destruct (draw g) as [x g1]. specialize (IH g1).
  destruct (draw_n draw n g1) as [xs g2]. simpl in *. now rewrite IH.
Qed.

Lemma draw_n_Forall (P : A -> Prop) (draw : G -> A * G) :
  (forall g, P (fst (draw g))) ->
  forall n g, Forall P (fst (draw_n draw n g)).
Proof.
  intros HP n. induction n as [|n IH]; intros g; simpl; [constructor|].
  pose proof (HP g) as Hx. destruct (draw g) as [x g1]. specialize (IH g1).
  destruct (draw_n draw n g1) as [xs g2]. simpl in *. now constructor.
Qed.

(** A loop that draws one sample per pass and appends what two
    estimators make of it. *)
Lemma for_in_paired (sampler : G -> A * G) (e1 e2 : A -> B)
    (body : list B * list B * G -> list B * list B * G) :
  (forall a b g,
      body (a, b, g) =
      (a ++ [e1 (fst (sampler g))], b ++ [e2 (fst (sampler g))], snd (sampler g))) ->
  forall (idx : list I) a b g,
    for_in idx (fun _ => body) (a, b, g) =
    (a ++ map e1 (fst (draw_n sampler (length idx) g)),
     b ++ map e2 (fst (draw_n sampler (length idx) g)),
     snd (draw_n sampler (length idx) g)).
Proof.
  intros Hbody idx. unfold for_in.
  induction idx as [|i idx IH]; intros a b g; simpl.
  - now rewrite !app_nil_r.
  - rewrite Hbody, IH. destruct (sampler g) as [xs g1]. simpl.
    destruct (draw_n sampler (length idx) g1) as [rest g2]. simpl.
    now rewrite <- !app_assoc.
Qed.

(** The same with a single estimator. *)
Lemma for_in_single (sampler : G -> A * G) (e : A -> B)
    (body : list B * G -> list B * G) :
  (forall a g, body (a, g) = (a ++ [e (fst (sampler g))], snd (sampler g))) ->
  forall (idx : list I) a g,
    for_in idx (fun _ => body) (a, g) =
    (a ++ map e (fst (draw_n sampler (length idx) g)),
     snd (draw_n sampler (length idx) g)).
Proof.
  intros Hbody idx. unfold for_in.
  induction idx as [|i idx IH]; intros a g; simpl.
  - now rewrite app_nil_r.
  - rewrite Hbody, IH. destruct (sampler g) as [xs g1]. simpl.
    destruct (draw_n sampler (length idx) g1) as [rest g2]. simpl.
    now rewrite <- app_assoc.
Qed.
End Loops.

(** ** The trials of each experiment *)

Section Trials.
Context {T : Type} `{Scalar T}.
Variables PyRandom NpRandom : Type.
Variable random_gauss : T -> T -> PyRandom -> T * PyRandom.
Variable np_random_normal : T -> T -> NpRandom -> T * NpRandom.
Variable np_random_exponential : T -> NpRandom -> T * NpRandom.
Variable np_median : list T -> T.
Variable thinkstats2_Median : list T -> T.
Variable np_log_2 : T.

Lemma trials_count {G : Type} (draw : G -> T * G) n iters g :
  length (fst (trials draw n iters g)) = iters.
Proof. apply draw_n_length. Qed.

Lemma trials_size {G : Type} (draw : G -> T * G) n iters g :
  Forall (fun xs => length xs = n) (fst (trials draw n iters g)).
Proof. apply draw_n_Forall. intros g'. apply draw_n_length. Qed.

(** Each experiment's loop is a loop over [range(iters)] whose body draws
    a sample and appends estimates of it; after unfolding, the loop lemma
    applies and the body is checked against its shape. *)
Ltac loop_as_trials lemma body :=
  unfold trials; cbv zeta; rewrite lemma;
  [ now rewrite range_count
  | intros; unfold body;
    match goal with |- context [draw_n ?d ?n ?g] => now destruct (draw_n d n g) end ].

Lemma Estimate1_loop_trials n iters g :
  Estimate1_loop random_gauss np_median n iters g =
  let ts := trials (random_gauss (s_of_nat 0) (s_of_nat 1)) n iters g in
  (map np.mean (fst ts), map np_median (fst ts), snd ts).
Proof.
  unfold Estimate1_loop.
  loop_as_trials
    (for_in_paired (I:=Z) (draw_n (random_gauss (s_of_nat 0) (s_of_nat 1)) n)
                   np.mean np_median)
    @Estimate1_body.
Qed.

Lemma Estimate2_loop_trials n iters g :
  Estimate2_loop random_gauss n iters g =
  let ts := trials (random_gauss (s_of_nat 0) (s_of_nat 1)) n iters g in
  (map (np.var 0) (fst ts), map (np.var 1) (fst ts), snd ts).
Proof.
  unfold Estimate2_loop.
  loop_as_trials
    (for_in_paired (I:=Z) (draw_n (random_gauss (s_of_nat 0) (s_of_nat 1)) n)
                   (np.var 0) (np.var 1))
    @Estimate2_body.
Qed.

Lemma Estimate3_loop_trials n iters g :
  Estimate3_loop np_random_exponential thinkstats2_Median np_log_2 n iters g =
  let ts := trials (np_random_exponential (s_of_nat 1 / s_of_nat 2)%sc) n iters g in
  (map Estimate3_L (fst ts),
   map (Estimate3_Lm thinkstats2_Median np_log_2) (fst ts), snd ts).
Proof.
  unfold Estimate3_loop.
  loop_as_trials
    (for_in_paired (I:=Z)
       (draw_n (np_random_exponential (s_of_nat 1 / s_of_nat 2)%sc) n)
       Estimate3_L (Estimate3_Lm thinkstats2_Median np_log_2))
    @Estimate3_body.
Qed.

Lemma SimulateSample_trials mu sigma n iters g :
  SimulateSample np_random_normal mu sigma n iters g =
  let ts := trials (np_random_normal mu sigma) n iters g in
  (map np.mean (fst ts), snd ts).
Proof.
  unfold SimulateSample.
  loop_as_trials
    (for_in_single (I:=Z) (draw_n (np_random_normal mu sigma) n) np.mean)
    @SimulateSample_body.
Qed.
End Trials.

(** ** Games *)

Section Games.
Context {T : Type} `{Scalar T}.
Variable PyRandom : Type.
Variable random_expovariate : T -> PyRandom -> T * PyRandom.

Lemma ManyGames_loop_length fuel lam idx :
  forall acc g goals g',
    ManyGames_loop random_expovariate fuel lam idx acc g = Some (goals, g') ->
    length goals = length acc + length idx.
Proof.
  induction idx as [|i idx IH]; intros acc g goals g' Hrun; simpl in Hrun.
  - injection Hrun as <- _. simpl. lia.
  - destruct (SimulateGame random_expovariate fuel lam g) as [[L g1]|];
      [|discriminate].
    apply IH in Hrun. rewrite Hrun, length_app. simpl. lia.
Qed.

Lemma ManyGames_loop_returns fuel lam :
  (forall g, SimulateGame random_expovariate fuel lam g <> None) ->
  forall idx acc g,
    ManyGames_loop random_expovariate fuel lam idx acc g <> None.
Proof.
  intros Hends idx. induction idx as [|i idx IH]; intros acc g; simpl.
  - discriminate.
  - specialize (Hends g).
    destruct (SimulateGame random_expovariate fuel lam g) as [[L g1]|].
    + apply IH.
    + contradiction.
Qed.

Lemma ManyGames_goals_count fuel lam g :
  (forall g0, SimulateGame random_expovariate fuel lam g0 <> None) ->
  exists goals g',
    ManyGames_goals random_expovariate fuel lam g = Some (goals, g') /\
    length goals = length (range 1 10000).
Proof.
  intros Hends. unfold ManyGames_goals.
  pose proof (@ManyGames_loop_returns fuel lam Hends (range 1 10000) [] g) as Hret.
  destruct (ManyGames_loop random_expovariate fuel lam (range 1 10000) [] g)
    as [[goals g']|] eqn:Hrun; [|contradiction].
  exists goals, g'. split; [reflexivity|].
  now apply ManyGames_loop_length in Hrun.
Qed.

Local Open Scope scalar_scope.

(** A game that ends has made [k + 1] draws for some [k]: the clock
    passed 1 at the last one and at none before, and [k] goals were
    added to the count. *)
Lemma SimulateGame_loop_trace fuel lam :
  forall goals t g L g',
    SimulateGame_loop random_expovariate fuel lam goals t g = Some (L, g') ->
    exists k ds,
      L = (goals + k)%nat /\
      draw_n (random_expovariate lam) (S k) g = (ds, g') /\
      map (fun a => a >? s_of_nat 1) (running_totals t ds) =
      repeat false k ++ [true].
Proof.
  induction fuel as [|fuel IH]; intros goals t g L g' Hrun; simpl in Hrun;
    [discriminate|].
  destruct (random_expovariate lam g) as [d g1] eqn:Hd.
  destruct (t + d >? s_of_nat 1) eqn:Hgt.
  - injection Hrun as <- <-. exists 0%nat, [d]. split; [lia|]. split.
    + simpl. now rewrite Hd.
    + simpl. now rewrite Hgt.
  - apply IH in Hrun as (k & ds & -> & Hdraw & Hmap).
    exists (S k), (d :: ds). split; [lia|]. split.
    + change (draw_n (random_expovariate lam) (S (S k)) g)
        with (let (x, g1) := random_expovariate lam g in
              let (xs, g2) := draw_n (random_expovariate lam) (S k) g1 in
              (x :: xs, g2)).
      now rewrite Hd, Hdraw.
    + simpl. now rewrite Hgt, Hmap.
Qed.

(** A game ends within [fuel] draws when the clock passes 1 at one of
    the first [fuel] draws. *)
Lemma SimulateGame_loop_ends fuel lam :
  forall goals t g,
    existsb (fun a => a >? s_of_nat 1)
            (running_totals t (fst (draw_n (random_expovariate lam) fuel g))) = true ->
    SimulateGame_loop random_expovariate fuel lam goals t g <> None.
Proof.
  induction fuel as [|fuel IH]; intros goals t g Hpass; simpl in *;
    [discriminate|].
  destruct (random_expovariate lam g) as [d g1].
  destruct (draw_n (random_expovariate lam) fuel g1) as [ds g2] eqn:Hds.
  simpl in Hpass.
  destruct (t + d >? s_of_nat 1); [discriminate|].
  apply IH. now rewrite Hds.
Qed.
End Games.

(** ** The pairing of estimators, and the sizes *)

Section Pairing.
Context {T : Type} `{Scalar T}.
Variables PyRandom NpRandom : Type.
Variable random_gauss : T -> T -> PyRandom -> T * PyRandom.
Variable random_expovariate : T -> PyRandom -> T * PyRandom.
Variable np_random_normal : T -> T -> NpRandom -> T * NpRandom.
Variable np_random_exponential : T -> NpRandom -> T * NpRandom.
Variable np_median : list T -> T.
Variable thinkstats2_Median : list T -> T.
Variable np_log_2 : T.

(** C1.  In [Estimate1] and in [Estimate3] the two estimate sets are made
    from one and the same list of samples: there are exactly [iters]
    samples, the [i]-th entry of each set is that set's estimator applied
    to the [i]-th sample, and the generator is left where those [iters]
    samples left it, so that no further variate was drawn for either
    estimator. *)
Theorem estimators_share_each_sample (n iters : nat) (g : PyRandom) (h : NpRandom) :
  (let ts := trials (random_gauss (s_of_nat 0) (s_of_nat 1)) n iters g in
   let '(means, medians, g') := Estimate1_loop random_gauss np_median n iters g in
   length (fst ts) = iters /\
   (forall i,
       nth_error means i = option_map np.mean (nth_error (fst ts) i) /\
       nth_error medians i = option_map np_median (nth_error (fst ts) i)) /\
   g' = snd ts)
  /\
  (let ts := trials (np_random_exponential (s_of_nat 1 / s_of_nat 2)%sc) n iters h in
   let '(means, medians, h') :=
     Estimate3_loop np_random_exponential thinkstats2_Median np_log_2 n iters h in
   length (fst ts) = iters /\
   (forall i,
       nth_error means i = option_map Estimate3_L (nth_error (fst ts) i) /\
       nth_error medians i =
       option_map (Estimate3_Lm thinkstats2_Median np_log_2) (nth_error (fst ts) i)) /\
   h' = snd ts).
Proof.
  split.
  - rewrite Estimate1_loop_trials. cbv zeta.
    split; [apply trials_count|]. split; [|reflexivity].
    intros i. now rewrite !nth_error_map.
  - rewrite Estimate3_loop_trials. cbv zeta.
    split; [apply trials_count|]. split; [|reflexivity].
    intros i. now rewrite !nth_error_map.
Qed.

(** C6.  In every experiment the estimate sets are the estimators mapped
    over the samples its loop draws; every set has as many entries as
    iterations were asked for, and every one of those samples has [n]
    items.  [ManyGames] takes no iteration count: when its games end,
    [goals] has one entry per index of its [range]. *)
Theorem estimate_sets_and_trials_sized
    (n iters : nat) (mu sigma lam : T) (fuel : nat) (g : PyRandom) (h : NpRandom) :
  (let ts := trials (random_gauss (s_of_nat 0) (s_of_nat 1)) n iters g in
   let '(means, medians, g') := Estimate1_loop random_gauss np_median n iters g in
   (means = map np.mean (fst ts) /\ medians = map np_median (fst ts) /\
    g' = snd ts) /\
   length means = iters /\ length medians = iters /\
   length (fst ts) = iters /\ Forall (fun xs => length xs = n) (fst ts))
  /\
  (let ts := trials (random_gauss (s_of_nat 0) (s_of_nat 1)) n iters g in
   let '(estimates1, estimates2, g') := Estimate2_loop random_gauss n iters g in
   (estimates1 = map (np.var 0) (fst ts) /\ estimates2 = map (np.var 1) (fst ts) /\
    g' = snd ts) /\
   length estimates1 = iters /\ length estimates2 = iters /\
   length (fst ts) = iters /\ Forall (fun xs => length xs = n) (fst ts))
  /\
  (let ts := trials (np_random_exponential (s_of_nat 1 / s_of_nat 2)%sc) n iters h in
   let '(means, medians, h') :=
     Estimate3_loop np_random_exponential thinkstats2_Median np_log_2 n iters h in
   (means = map Estimate3_L (fst ts) /\
    medians = map (Estimate3_Lm thinkstats2_Median np_log_2) (fst ts) /\
    h' = snd ts) /\
   length means = iters /\ length medians = iters /\
   length (fst ts) = iters /\ Forall (fun xs => length xs = n) (fst ts))
  /\
  (let ts := trials (np_random_normal mu sigma) n iters h in
   let '(xbars, h') := SimulateSample np_random_normal mu sigma n iters h in
   (xbars = map np.mean (fst ts) /\ h' = snd ts) /\
   length xbars = iters /\
   length (fst ts) = iters /\ Forall (fun xs => length xs = n) (fst ts))
  /\
  ((forall g0, SimulateGame random_expovariate fuel lam g0 <> None) ->
   exists goals g',
     ManyGames_goals random_expovariate fuel lam g = Some (goals, g') /\
     length goals = length (range 1 10000)).
Proof.
  split; [|split; [|split; [|split]]].
  - rewrite Estimate1_loop_trials. cbv beta iota zeta. rewrite !length_map.
    repeat split; (apply trials_count || apply trials_size).
  - rewrite Estimate2_loop_trials. cbv beta iota zeta. rewrite !length_map.
    repeat split; (apply trials_count || apply trials_size).
  - rewrite Estimate3_loop_trials. cbv beta iota zeta. rewrite !length_map.
    repeat split; (apply trials_count || apply trials_size).
  - rewrite SimulateSample_trials. cbv beta iota zeta. rewrite !length_map.
    repeat split; (apply trials_count || apply trials_size).
  - apply ManyGames_goals_count.
Qed.
End Pairing.

(** ** Exact arithmetic *)

Section RealArithmetic.
Local Open Scope R_scope.

Lemma fold_left_Rplus (xs : list R) (a : R) :
  fold_left Rplus xs a = a + Rsum xs.
Proof.
  revert a. induction xs as [|x xs IH]; intros a; simpl; [lra|].
  rewrite IH. lra.
Qed.

Lemma np_sum_R (xs : list R) : np.sum xs = Rsum xs.
Proof. unfold np.sum. simpl. rewrite fold_left_Rplus. lra. Qed.

Lemma np_mean_R (xs : list R) : np.mean xs = Rmean xs.
Proof. unfold np.mean, Rmean. now rewrite np_sum_R. Qed.

Lemma Rsum_map_ext (f f' : R -> R) (xs : list R) :
  (forall x, f x = f' x) -> Rsum (map f xs) = Rsum (map f' xs).
Proof. intros Hext. f_equal. apply map_ext, Hext. Qed.

Lemma Rsum_map_shift (f : R -> R) (c : R) (xs : list R) :
  Rsum (map (fun x => f x + c) xs) = Rsum (map f xs) + INR (length xs) * c.
Proof.
  induction xs as [|x xs IH]; [simpl; lra|].
  change (length (x :: xs)) with (S (length xs)). rewrite S_INR.
  simpl. rewrite IH. lra.
Qed.

Lemma nonempty_INR (A : Type) (xs : list A) : xs <> [] -> INR (length xs) <> 0.
Proof.
  intros Hne. destruct xs as [|x xs]; [contradiction|].
  apply not_0_INR. discriminate.
Qed.

Lemma np_var_0_R (xs : list R) : np.var 0 xs = population_variance xs.
Proof.
  unfold np.var, population_variance. cbv zeta.
  rewrite Nat.sub_0_r, map_map, !np_sum_R. simpl.
  fold (Rmean xs). f_equal. apply Rsum_map_ext. intros x. ring.
Qed.

Lemma np_var_1_R (xs : list R) :
  (1 <= length xs)%nat -> np.var 1 xs = sample_variance xs.
Proof.
  intros Hlen. unfold np.var, sample_variance. cbv zeta.
  rewrite map_map, !np_sum_R. simpl s_of_nat. simpl s_sub. simpl s_mul.
  simpl s_div. rewrite minus_INR by exact Hlen. simpl INR.
  fold (Rmean xs). f_equal. apply Rsum_map_ext. intros x. ring.
Qed.
End RealArithmetic.

(** ** What the summaries compute *)

Section Summaries.
Local Open Scope R_scope.

(** C2.  On a non-empty sequence of estimates, [RMSE] is the square root
    of the average squared deviation from the true value,
    [sqrt ((1/m) * sum_i (e_i - a)^2)] (exact arithmetic). *)
Theorem RMSE_root_mean_squared_deviation (estimates : list R) (actual : R) :
  estimates <> [] ->
  RMSE estimates actual = root_mean_squared_deviation estimates actual.
Proof.
  intros Hne. apply nonempty_INR in Hne.
  unfold RMSE, root_mean_squared_deviation, np.sqrt. cbv zeta.
  rewrite np_mean_R. unfold Rmean. rewrite length_map. simpl s_sqrt.
  f_equal.
  rewrite (Rsum_map_ext (fun e => (e - actual) * (e - actual))
                        (fun e => (e - actual) ^ 2)) by (intros e; ring).
  field. exact Hne.
Qed.

(** C7, amended.  In exact arithmetic [MeanError] follows a constant
    shift of the estimates: on a non-empty sequence,
    [MeanError([e + c for e in estimates], actual)] is
    [MeanError(estimates, actual) + c]. *)
Theorem MeanError_shift_exact (estimates : list R) (actual c : R) :
  estimates <> [] ->
  MeanError (map (fun e => e + c) estimates) actual =
  MeanError estimates actual + c.
Proof.
  intros Hne. apply nonempty_INR in Hne.
  unfold MeanError. cbv zeta. rewrite !np_mean_R. unfold Rmean.
  rewrite map_map, !length_map. simpl s_sub.
  rewrite (Rsum_map_ext (fun e => e + c - actual)
                        (fun e => (e - actual) + c)) by (intros e; ring).
  rewrite Rsum_map_shift. field. exact Hne.
Qed.

Lemma RMSE_nonneg_R (estimates : list R) (actual : R) :
  0 <= RMSE estimates actual.
Proof. unfold RMSE, np.sqrt. cbv zeta. simpl s_sqrt. apply sqrt_pos. Qed.
End Summaries.

(** ** The variance experiment *)

Section Variance.
Variable PyRandom : Type.
Variable random_gauss : R -> R -> PyRandom -> R * PyRandom.

(** C4.  With samples of size [n >= 2], [Estimate2] takes from every
    sample the population variance (squared deviations from the mean,
    over [n]) and the sample variance (the same sum over [n - 1]), and
    both estimate sets are built over the same list of samples (exact
    arithmetic). *)
Theorem Estimate2_both_variances (n iters : nat) (g : PyRandom) :
  (2 <= n)%nat ->
  let ts := trials (random_gauss (s_of_nat 0) (s_of_nat 1)) n iters g in
  Estimate2_loop random_gauss n iters g =
  (map population_variance (fst ts), map sample_variance (fst ts), snd ts).
Proof.
  intros Hn. rewrite Estimate2_loop_trials. cbv zeta.
  pose proof (trials_size (random_gauss (s_of_nat 0) (s_of_nat 1)) n iters g) as Hsize.
  rewrite Forall_forall in Hsize.
  rewrite (map_ext _ _ np_var_0_R).
  rewrite (map_ext_in (np.var 1) sample_variance); [reflexivity|].
  intros xs Hin. apply np_var_1_R. rewrite (Hsize xs Hin). lia.
Qed.
End Variance.

(** ** The goal-count estimator *)

Section GoalCount.
Local Open Scope R_scope.

Lemma goals_within_unit_gtb (arrivals : list R) :
  goals_within_unit arrivals =
  length (filter negb (map (fun a => s_gtb a (s_of_nat 1)) arrivals)).
Proof.
  unfold goals_within_unit.
  induction arrivals as [|a arrivals IH]; [reflexivity|].
  simpl. destruct (Rle_dec a 1), (Rgt_dec a 1); simpl; try lra; now rewrite IH.
Qed.

Lemma passes_unit_existsb (arrivals : list R) :
  Exists (fun a => a > 1) arrivals ->
  existsb (fun a => s_gtb a (s_of_nat 1)) arrivals = true.
Proof.
  intros Hex. apply existsb_exists. apply Exists_exists in Hex.
  destruct Hex as (a & Hin & Hgt). exists a. split; [exact Hin|].
  simpl. now destruct (Rgt_dec a 1).
Qed.

Lemma count_before_pass (k : nat) :
  length (filter negb (repeat false k ++ [true])) = k.
Proof. induction k as [|k IH]; simpl; [reflexivity|now rewrite IH]. Qed.

Lemma filter_negb_map (A : Type) (f : A -> bool) (l : list A) :
  length (filter (fun a => negb (f a)) l) = length (filter negb (map f l)).
Proof.
  induction l as [|a l IH]; [reflexivity|].
  simpl. destruct (f a); simpl; now rewrite IH.
Qed.

(** C8, as stated, fails in binary64.  With the times [0.5], [0.5 + 2^-53]
    and [3] between goals the second goal arrives after the end of the game,
    at [1 + 2^-53], and one goal falls within the game: that is what the
    game returns in exact arithmetic.  The code's clock rounds the second
    arrival to [1.0], which is not past 1, and the code returns 2. *)
Lemma SimulateGame_clock_rounds :
  SimulateGame (fun _ => replay) 3 2%float
               [0.5; 0x1.0000000000001p-1; 3]%float = Some (2%nat, []) /\
  running_totals 0%float [0.5; 0x1.0000000000001p-1; 3]%float = [0.5; 1; 4]%float /\
  SimulateGame (fun _ => replay) 3 2 [1 / 2; 1 / 2 + / 2 ^ 53; 3] = Some (1%nat, [3]) /\
  goals_within_unit (running_totals 0 [1 / 2; 1 / 2 + / 2 ^ 53; 3]) = 1%nat.
Proof.
  assert (Heps : 0 < / 2 ^ 53) by (apply Rinv_0_lt_compat, pow_lt; lra).
  set (eps := / 2 ^ 53) in *.
  split; [reflexivity|]. split; [reflexivity|]. split.
  - unfold SimulateGame. cbn [SimulateGame_loop replay].
    cbn [s_add s_gtb s_of_nat Scalar_R INR].
    destruct (Rgt_dec (0 + 1 / 2) 1) as [Hgt|_]; [lra|].
    destruct (Rgt_dec (0 + 1 / 2 + (1 / 2 + eps)) 1) as [_|Hle]; [reflexivity|lra].
  - unfold goals_within_unit. cbn [running_totals filter].
    cbn [s_add Scalar_R].
    destruct (Rle_dec (0 + 1 / 2) 1) as [_|Hgt]; [|lra].
    destruct (Rle_dec (0 + 1 / 2 + (1 / 2 + eps)) 1) as [Hle|_]; [lra|].
    destruct (Rle_dec (0 + 1 / 2 + (1 / 2 + eps) + 3) 1) as [Hle|_]; [lra|].
    reflexivity.
Qed.

(** C8, amended.  A game that ends within the draws allowed returns the
    number of goals scored while its own clock, the running total of the
    times between goals as the code adds them up, had not passed 1: of the
    [L + 1] times it drew, the first [L] running totals are not above 1
    and the last one is.  In exact arithmetic these are the goals whose
    arrival time is at most 1.  On the times [1/2, 3/5] that count is 1,
    where the estimate [1 / mean] of [Estimate3] is [20/11]. *)
Theorem SimulateGame_counts_goals_in_unit_interval :
  (forall (T : Type) (Sc : Scalar T) (PyRandom : Type)
          (random_expovariate : T -> PyRandom -> T * PyRandom)
          (fuel : nat) (lam : T) (g : PyRandom),
      existsb (fun a => s_gtb a (s_of_nat 1))
              (running_totals (s_of_nat 0)
                              (fst (draw_n (random_expovariate lam) fuel g))) = true ->
      exists L ds g',
        SimulateGame random_expovariate fuel lam g = Some (L, g') /\
        draw_n (random_expovariate lam) (S L) g = (ds, g') /\
        map (fun a => s_gtb a (s_of_nat 1)) (running_totals (s_of_nat 0) ds) =
        repeat false L ++ [true] /\
        L = length (filter (fun a => negb (s_gtb a (s_of_nat 1)))
                           (running_totals (s_of_nat 0) ds)))
  /\
  (forall arrivals : list R,
      length (filter (fun a => negb (s_gtb a (s_of_nat 1))) arrivals) =
      goals_within_unit arrivals)
  /\
  (let times := [1 / 2; 3 / 5] in
   SimulateGame (fun _ => replay) 2 2 times = Some (1%nat, []) /\
   goals_within_unit (running_totals 0 times) = 1%nat /\
   Estimate3_L times = 20 / 11 /\
   INR 1 <> Estimate3_L times).
Proof.
  split; [|split].
  - intros T Sc PyRandom random_expovariate fuel lam g Hpass.
    apply (SimulateGame_loop_ends random_expovariate fuel lam 0%nat) in Hpass.
    unfold SimulateGame.
    destruct (SimulateGame_loop random_expovariate fuel lam 0 (s_of_nat 0) g)
      as [[L g']|] eqn:Hrun; [|contradiction].
    apply SimulateGame_loop_trace in Hrun as (k & ds & -> & Hdraw & Hmap).
    exists (0 + k)%nat, ds, g'. split; [reflexivity|]. split; [exact Hdraw|].
    split; [exact Hmap|].
    rewrite filter_negb_map, Hmap, count_before_pass. reflexivity.
  - intros arrivals. rewrite filter_negb_map. symmetry.
    apply goals_within_unit_gtb.
  - cbv zeta.
    assert (HL : Estimate3_L [1 / 2; 3 / 5] = 20 / 11).
    { unfold Estimate3_L, np.mean, np.sum. simpl. field. }
    split; [|split; [|split]].
    + unfold SimulateGame. simpl.
      destruct (Rgt_dec (0 + 1 / 2) 1) as [Hgt|_]; [lra|].
      destruct (Rgt_dec (0 + 1 / 2 + 3 / 5) 1) as [_|Hle]; [reflexivity|lra].
    + unfold goals_within_unit. simpl.
      destruct (Rle_dec (0 + 1 / 2) 1) as [_|Hgt]; [|lra].
      destruct (Rle_dec (0 + 1 / 2 + 3 / 5) 1) as [Hle|_]; [lra|reflexivity].
    + exact HL.
    + rewrite HL. simpl. lra.
Qed.
End GoalCount.

(** ** binary64 *)

Section Binary64.
Local Open Scope float_scope.

(** A square root in binary64 is NaN or not below zero. *)
Lemma float_sqrt_nan_or_nonneg (x : float) :
  is_nan (PrimFloat.sqrt x) = true \/ (0 <=? PrimFloat.sqrt x) = true.
Proof.
  unfold is_nan. rewrite FloatAxioms.eqb_spec, leb_spec, sqrt_spec.
  change (Prim2SF 0) with (S754_zero false).
  destruct (Prim2SF x) as [s|s| |s m e]; simpl.
  - right. reflexivity.
  - destruct s; [left|right]; reflexivity.
  - left. reflexivity.
  - destruct s; [left; reflexivity|].
    unfold SF64sqrt, SFsqrt.
    destruct (SFsqrt_core_binary prec emax (Z.pos m) e) as [[mz ez] lz].
    unfold binary_round_aux.
    destruct (shr_fexp prec emax mz ez lz) as [mrs' e'].
    destruct (shr_fexp prec emax _ e' SpecFloat.loc_Exact) as [mrs'' e''].
    destruct (shr_m mrs'') as [|p|p].
    + right. reflexivity.
    + destruct (e'' <=? emax - prec)%Z; right; reflexivity.
    + left. reflexivity.
Qed.

Lemma RMSE_float_nan_or_nonneg (estimates : list float) (actual : float) :
  is_nan (RMSE estimates actual) = true \/ (0 <=? RMSE estimates actual) = true.
Proof. unfold RMSE, np.sqrt. cbv zeta. apply float_sqrt_nan_or_nonneg. Qed.

Lemma comprehension_returns (A B : Type) (f : A -> B) (l : list A) :
  comprehension (fun x => Returns (f x)) l = Returns (map f l).
Proof. induction l as [|x l IH]; simpl; [reflexivity|now rewrite IH]. Qed.

Lemma call_MeanError_returns kind (estimates : list float) (actual : float) :
  call_MeanError kind estimates actual = Returns (MeanError estimates actual).
Proof. unfold call_MeanError. now rewrite comprehension_returns. Qed.

Lemma call_RMSE_numpy (estimates : list float) (actual : float) :
  call_RMSE numpy_float64 estimates actual = Returns (RMSE estimates actual).
Proof.
  unfold call_RMSE, power2. now rewrite comprehension_returns.
Qed.

Lemma comprehension_python_power (actual : float) (estimates : list float) :
  comprehension (fun e => power2 python_float (e - actual)) estimates =
  if existsb (fun e => power2_overflows (e - actual)) estimates
  then Raises OverflowError
  else Returns (map (fun e => square (e - actual)) estimates).
Proof.
  induction estimates as [|e estimates IH]; [reflexivity|].
  cbn [comprehension existsb map]. rewrite IH.
  unfold power2 at 1. fold (power2_overflows (e - actual)).
  destruct (power2_overflows (e - actual)); [reflexivity|].
  now destruct (existsb _ estimates).
Qed.

Lemma call_RMSE_python (estimates : list float) (actual : float) :
  call_RMSE python_float estimates actual =
  if existsb (fun e => power2_overflows (e - actual)) estimates
  then Raises OverflowError
  else Returns (RMSE estimates actual).
Proof.
  unfold call_RMSE. rewrite comprehension_python_power.
  now destruct (existsb _ estimates).
Qed.

(** C3, as stated, fails on both counts.  On an empty sequence both calls
    return, and what they return is NaN.  On a non-empty sequence [RMSE]
    can fail: with the Python float [2 ** 600] as the one estimate of 0,
    the square overflows and the call raises [OverflowError]; with the
    same number as a numpy scalar it returns an infinity. *)
Lemma empty_estimates_do_not_raise :
  (call_RMSE numpy_float64 [] 0 = Returns nan /\
   call_RMSE python_float [] 0 = Returns nan /\
   call_MeanError numpy_float64 [] 0 = Returns nan /\
   call_MeanError python_float [] 0 = Returns nan) /\
  (call_RMSE python_float [0x1p600] 0 = Raises OverflowError /\
   call_RMSE numpy_float64 [0x1p600] 0 = Returns infinity).
Proof. repeat split; reflexivity. Qed.

(** C3, amended.  With an empty sequence of estimates [RMSE] and
    [MeanError] do not fail: each returns NaN, the mean numpy takes of an
    empty array.  [MeanError] returns on every sequence.  [RMSE] returns
    on every sequence of numpy scalars; on Python floats it raises
    [OverflowError] exactly when the square of some deviation
    [estimate - actual] overflows, and returns otherwise.  Neither call
    ever raises [InvalidInput]. *)
Theorem empty_estimates_return_nan :
  (forall kind (actual : float),
      call_RMSE kind [] actual = Returns nan /\
      call_MeanError kind [] actual = Returns nan)
  /\
  (forall kind (estimates : list float) (actual : float),
      call_MeanError kind estimates actual = Returns (MeanError estimates actual))
  /\
  (forall (estimates : list float) (actual : float),
      call_RMSE numpy_float64 estimates actual = Returns (RMSE estimates actual))
  /\
  (forall (estimates : list float) (actual : float),
      call_RMSE python_float estimates actual =
      if existsb (fun e => power2_overflows (e - actual)) estimates
      then Raises OverflowError
      else Returns (RMSE estimates actual))
  /\
  (forall kind (estimates : list float) (actual : float),
      call_RMSE kind estimates actual <> Raises InvalidInput /\
      call_MeanError kind estimates actual <> Raises InvalidInput).
Proof.
  split; [|split; [|split; [|split]]].
  - intros kind actual. split; [|apply call_MeanError_returns].
    destruct kind; reflexivity.
  - apply call_MeanError_returns.
  - apply call_RMSE_numpy.
  - apply call_RMSE_python.
  - intros kind estimates actual. split.
    + destruct kind; [rewrite call_RMSE_numpy|rewrite call_RMSE_python];
        [discriminate|]. now destruct (existsb _ estimates).
    + rewrite call_MeanError_returns. discriminate.
Qed.

(** C2, as stated, fails in binary64.  With the one estimate [2 ** 600] of
    the true value 0 the formula gives [2 ** 600], a number binary64 has;
    the code squares, overflows, and returns an infinity as a numpy scalar
    and raises [OverflowError] as a Python float.  With [2 ** -600] the
    square underflows and the code returns 0. *)
Lemma RMSE_overflows_where_the_formula_does_not :
  (root_mean_squared_deviation [2 ^ 600]%R 0%R = 2 ^ 600)%R /\
  RMSE [0x1p600] 0 = infinity /\
  (RMSE [0x1p600] 0 =? 0x1p600) = false /\
  call_RMSE python_float [0x1p600] 0 = Raises OverflowError /\
  RMSE [0x1p-600] 0 = 0.
Proof.
  split; [|repeat split; reflexivity].
  assert (Hone : forall x : R, (0 <= x)%R ->
                 root_mean_squared_deviation [x] 0%R = x).
  { intros x Hx. unfold root_mean_squared_deviation, Rsum.
    cbn [map fold_right length]. change (INR 1) with 1%R.
    replace (1 / 1 * ((x - 0) ^ 2 + 0))%R with (Rsqr x)
      by (unfold Rsqr; field).
    now apply sqrt_Rsqr. }
  apply Hone. apply pow_le. lra.
Qed.

(** C7, as stated, fails in binary64: with the estimate [1e16], the true
    value [1e16] and the shift [1], the shifted estimate rounds back to
    [1e16] and its mean error is [0], while the mean error of the
    unshifted estimate plus the shift is [1]. *)
Lemma MeanError_shift_rounds :
  MeanError (map (fun e => e + 1) [1e16]) 1e16 = 0 /\
  MeanError [1e16] 1e16 + 1 = 1 /\
  (MeanError (map (fun e => e + 1) [1e16]) 1e16 =? MeanError [1e16] 1e16 + 1)
  = false /\
  MeanError (map (fun e => e + 1) [1e16]) 1e16 <> MeanError [1e16] 1e16 + 1.
Proof.
  repeat split; try reflexivity.
  intros Heq. apply (f_equal (fun x => x =? 0)) in Heq.
  vm_compute in Heq. discriminate Heq.
Qed.

(** C9, as stated, fails on the empty sequence: [RMSE] returns NaN there,
    and NaN is not [>= 0]. *)
Lemma RMSE_empty_not_nonneg :
  RMSE [] 0 = nan /\ (0 <=? RMSE [] 0) = false.
Proof. split; reflexivity. Qed.
End Binary64.

(** ** Signs in binary64 *)

Section Signs.

Lemma shr_1_nonneg mrs : (0 <= shr_m mrs)%Z -> (0 <= shr_m (shr_1 mrs))%Z.
Proof.
  destruct mrs as [m r s]. destruct m as [|p|p]; simpl; intros Hm;
    [lia|destruct p; simpl; lia|lia].
Qed.

Lemma iter_pos_shr_1_nonneg (p : positive) :
  forall mrs, (0 <= shr_m mrs)%Z -> (0 <= shr_m (iter_pos shr_1 p mrs))%Z.
Proof.
  induction p as [p IH|p IH|]; simpl; intros mrs Hm.
  - apply IH, IH, shr_1_nonneg, Hm.
  - apply IH, IH, Hm.
  - apply shr_1_nonneg, Hm.
Qed.

Lemma shr_fexp_nonneg (m e : Z) (l : location) :
  (0 <= m)%Z -> (0 <= shr_m (fst (shr_fexp prec emax m e l)))%Z.
Proof.
  intros Hm. unfold shr_fexp, shr.
  assert (Hrec : (0 <= shr_m (shr_record_of_loc m l))%Z)
    by (destruct l as [|[]]; exact Hm).
  destruct (fexp prec emax (Zdigits2 m + e) - e)%Z; simpl; try exact Hrec.
  now apply iter_pos_shr_1_nonneg.
Qed.

Lemma round_nearest_even_nonneg (m : Z) (l : location) :
  (0 <= m)%Z -> (0 <= round_nearest_even m l)%Z.
Proof.
  intros Hm. destruct l as [|[]]; simpl; try lia.
  destruct (Z.even m); lia.
Qed.

(** Rounding a magnitude gives a zero, a number or an infinity of the sign
    asked for. *)
Lemma binary_round_aux_signed (sx : bool) (m e : Z) (l : location) :
  (0 <= m)%Z -> SFsigned sx (binary_round_aux prec emax sx m e l).
Proof.
  intros Hm. unfold binary_round_aux.
  pose proof (shr_fexp_nonneg e l Hm) as H1.
  destruct (shr_fexp prec emax m e l) as [mrs' e']. simpl in H1.
  pose proof (shr_fexp_nonneg e' SpecFloat.loc_Exact
                (round_nearest_even_nonneg (loc_of_shr_record mrs') H1)) as H2.
  destruct (shr_fexp prec emax _ e' SpecFloat.loc_Exact) as [mrs'' e''].
  simpl in H2.
  destruct (shr_m mrs'') as [|q|q]; [reflexivity| |lia].
  now destruct (e'' <=? emax - prec)%Z.
Qed.

Lemma binary_normalize_not_nan (m e : Z) (szero : bool) :
  binary_normalize prec emax m e szero <> S754_nan.
Proof.
  unfold binary_normalize, binary_round.
  destruct m as [|q|q]; [discriminate| |].
  - destruct (shl_align q e _) as [mz ez].
    pose proof (@binary_round_aux_signed false (Z.pos mz) ez SpecFloat.loc_Exact
                  ltac:(lia)) as Hs.
    intros Hnan. rewrite Hnan in Hs. exact Hs.
  - destruct (shl_align q e _) as [mz ez].
    pose proof (@binary_round_aux_signed true (Z.pos mz) ez SpecFloat.loc_Exact
                  ltac:(lia)) as Hs.
    intros Hnan. rewrite Hnan in Hs. exact Hs.
Qed.

Lemma binary_normalize_pos (q : positive) (e : Z) (szero : bool) :
  SFsigned false (binary_normalize prec emax (Z.pos q) e szero).
Proof.
  unfold binary_normalize, binary_round.
  destruct (shl_align q e _) as [mz ez].
  apply binary_round_aux_signed. lia.
Qed.

Local Open Scope float_scope.

Lemma Prim2SF_finite (a : float) :
  is_finite a = true ->
  match Prim2SF a with
  | S754_zero _ | S754_finite _ _ _ => True
  | _ => False
  end.
Proof.
  unfold is_finite. intros Hfin. apply Bool.negb_true_iff in Hfin.
  apply Bool.orb_false_iff in Hfin. destruct Hfin as [Hnan Hinf].
  unfold Prim2SF. rewrite Hnan, Hinf.
  destruct (is_zero a); [exact I|].
  destruct (Z.frexp a) as [r exp].
  destruct (shr_fexp prec emax _ (exp - prec)%Z SpecFloat.loc_Exact) as [shr e'].
  now destruct (shr_m shr).
Qed.

(** The difference of two finite numbers is not NaN. *)
Lemma sub_finite_not_nan (a b : float) :
  is_finite a = true -> is_finite b = true -> Prim2SF (a - b) <> S754_nan.
Proof.
  intros Ha Hb. apply Prim2SF_finite in Ha. apply Prim2SF_finite in Hb.
  rewrite sub_spec. unfold SF64sub, SFsub.
  destruct (Prim2SF a) as [sa|sa| |sa ma ea]; try contradiction;
    destruct (Prim2SF b) as [sb|sb| |sb mb eb]; try contradiction.
  - destruct sa, sb; discriminate.
  - discriminate.
  - discriminate.
  - apply binary_normalize_not_nan.
Qed.

(** A square is at or above zero, unless it is the square of NaN. *)
Lemma square_signed (d : float) :
  Prim2SF d <> S754_nan -> SFsigned false (Prim2SF (d * d)).
Proof.
  intros Hd. rewrite mul_spec. unfold SF64mul, SFmul.
  destruct (Prim2SF d) as [s|s| |s m e]; [| |contradiction|].
  - now destruct s.
  - now destruct s.
  - rewrite Bool.xorb_nilpotent. apply binary_round_aux_signed. lia.
Qed.

Lemma signed_nonneg (x : spec_float) : SFsigned false x -> SFnonneg x.
Proof. destruct x; simpl; auto. Qed.

Lemma add_nonneg (x y : float) :
  SFnonneg (Prim2SF x) -> SFnonneg (Prim2SF y) -> SFnonneg (Prim2SF (x + y)).
Proof.
  intros Hx Hy. rewrite add_spec. unfold SF64add, SFadd.
  destruct (Prim2SF x) as [sx|sx| |sx mx ex]; simpl in Hx; try contradiction;
    destruct (Prim2SF y) as [sy|sy| |sy my ey]; simpl in Hy; try contradiction;
    subst; try exact I; try reflexivity.
  - now destruct sx, sy.
  - simpl cond_Zopp. apply signed_nonneg, binary_normalize_pos.
Qed.

(** The items added up in the order of the list, from zero, as [np.sum]
    has it, is one of the ways of adding them up. *)
Lemma fold_left_summed (l : list float) :
  forall l0 acc, summed l0 acc -> summed (l0 ++ l) (fold_left PrimFloat.add l acc).
Proof.
  induction l as [|x l IH]; intros l0 acc Hacc; simpl.
  - now rewrite app_nil_r.
  - replace (l0 ++ x :: l) with ((l0 ++ [x]) ++ l) by now rewrite <- app_assoc.
    apply IH. apply summed_add; [exact Hacc|apply summed_item].
Qed.

Lemma np_sum_summed (l : list float) : summed l (np.sum l).
Proof. apply (fold_left_summed l (l0:=[])). apply summed_zero. Qed.

(** Items that are [>= 0] add up to a sum that is, in whatever order. *)
Lemma summed_nonneg (l : list float) (s : float) :
  summed l s ->
  Forall (fun x => SFnonneg (Prim2SF x)) l -> SFnonneg (Prim2SF s).
Proof.
  induction 1 as [| |x|l1 l2 s1 s2 H1 IH1 H2 IH2|l l' s Hperm Hs IH];
    intros Hall.
  - exact I.
  - exact I.
  - now inversion Hall.
  - apply Forall_app in Hall. destruct Hall as [Hl1 Hl2].
    apply add_nonneg; auto.
  - apply IH. eapply Permutation_Forall; [|exact Hall].
    now apply Permutation_sym.
Qed.

Lemma div_nonneg (x y : float) my ey :
  SFnonneg (Prim2SF x) -> Prim2SF y = S754_finite false my ey ->
  SFnonneg (Prim2SF (x / y)).
Proof.
  intros Hx Hy. rewrite div_spec, Hy. unfold SF64div, SFdiv.
  destruct (Prim2SF x) as [sx|sx| |sx mx ex]; simpl in Hx; try contradiction;
    subst; try exact I; try reflexivity.
  unfold SFdiv_core_binary.
  set (m' := match (ex - ey - _)%Z with
             | Z0 => Z.pos mx
             | Z.pos _ => Z.shiftl (Z.pos mx) _
             | Z.neg _ => 0%Z
             end).
  assert (Hm' : (0 <= m')%Z).
  { unfold m'. destruct (ex - ey - _)%Z; [lia| |lia].
    apply Z.shiftl_nonneg. lia. }
  pose proof (Z.div_pos m' (Z.pos my) Hm' ltac:(lia)) as Hq.
  unfold Z.div in Hq.
  destruct (Z.div_eucl m' (Z.pos my)) as [q r].
  apply signed_nonneg, binary_round_aux_signed. exact Hq.
Qed.

Lemma sqrt_nonneg (x : float) :
  SFnonneg (Prim2SF x) -> SFnonneg (Prim2SF (PrimFloat.sqrt x)).
Proof.
  intros Hx. rewrite sqrt_spec. unfold SF64sqrt, SFsqrt.
  destruct (Prim2SF x) as [sx|sx| |sx mx ex]; simpl in Hx; try contradiction;
    subst; try exact I; try reflexivity.
  unfold SFsqrt_core_binary.
  set (m' := match (ex - 2 * _)%Z with
             | Z0 => Z.pos mx
             | Z.pos _ => Z.shiftl (Z.pos mx) _
             | Z.neg _ => 0%Z
             end).
  assert (Hm' : (0 <= m')%Z).
  { unfold m'. destruct (ex - 2 * _)%Z; [lia| |lia].
    apply Z.shiftl_nonneg. lia. }
  pose proof (Z.sqrtrem_spec m' Hm') as Hspec.
  destruct (Z.sqrtrem m') as [q r].
  apply signed_nonneg, binary_round_aux_signed. lia.
Qed.

Lemma nonneg_leb (r : float) : SFnonneg (Prim2SF r) -> (0 <=? r) = true.
Proof.
  intros Hr. rewrite leb_spec. change (Prim2SF 0) with (S754_zero false).
  destruct (Prim2SF r) as [s|s| |s m e]; simpl in Hr; try contradiction;
    subst; reflexivity.
Qed.

(** *** The count of a list as a float *)

Lemma digits2_pos_size (p : positive) : digits2_pos p = Pos.size p.
Proof. induction p as [p IH|p IH|]; simpl; congruence. Qed.

Lemma digits2_pos_iter_xO (p k : positive) :
  digits2_pos (Pos.iter xO p k) = (digits2_pos p + k)%positive.
Proof.
  induction k as [|k IH] using Pos.peano_ind.
  - simpl. lia.
  - rewrite Pos.iter_succ. simpl. rewrite IH. lia.
Qed.

Lemma digits2_pos_bound (p : positive) :
  (Z.pos p < 2 ^ 53)%Z -> (Z.pos (digits2_pos p) <= 53)%Z.
Proof.
  intros Hp. rewrite digits2_pos_size.
  pose proof (Pos.size_le p) as Hsize.
  assert (Hpow : (2 ^ Z.pos (Pos.size p) < 2 ^ 54)%Z).
  { rewrite <- Pos2Z.inj_pow.
    apply Z.le_lt_trans with (Z.pos p~0); [exact Hsize|].
    change (2 ^ 54)%Z with (2 * 2 ^ 53)%Z. lia. }
  apply Z.pow_lt_mono_r_iff in Hpow; lia.
Qed.

(** A magnitude of 53 digits within the exponent range is a float as it
    stands. *)
Lemma binary_round_aux_exact (mz : positive) (ez : Z) :
  Z.pos (digits2_pos mz) = 53%Z -> (-1074 <= ez <= 971)%Z ->
  binary_round_aux prec emax false (Z.pos mz) ez SpecFloat.loc_Exact =
  S754_finite false mz ez.
Proof.
  intros Hdigits Hez.
  assert (Hshift : (fexp prec emax (Zdigits2 (Z.pos mz) + ez) - ez = 0)%Z).
  { unfold fexp, SpecFloat.emin, Zdigits2. rewrite Hdigits.
    change prec with 53%Z. change emax with 1024%Z. lia. }
  unfold binary_round_aux, shr_fexp. rewrite Hshift. simpl shr.
  cbn [shr_record_of_loc loc_of_shr_record shr_m round_nearest_even].
  rewrite Hshift. simpl shr. cbn [shr_m].
  replace (ez <=? emax - prec)%Z with true; [reflexivity|].
  symmetry. apply Z.leb_le. change prec with 53%Z. change emax with 1024%Z. lia.
Qed.

Lemma binary_round_small (p : positive) :
  (Z.pos p < 2 ^ 53)%Z ->
  exists m e, binary_round prec emax false p 0 = S754_finite false m e.
Proof.
  intros Hp. apply digits2_pos_bound in Hp.
  unfold binary_round.
  assert (Hfexp : fexp prec emax (Z.pos (digits2_pos p) + 0)
                  = (Z.pos (digits2_pos p) - 53)%Z).
  { unfold fexp, SpecFloat.emin. change prec with 53%Z. change emax with 1024%Z.
    lia. }
  rewrite Hfexp. unfold shl_align.
  destruct (Z.pos (digits2_pos p) - 53 - 0)%Z as [|k|k] eqn:Hk; [|lia|].
  - exists p, 0%Z. apply binary_round_aux_exact; lia.
  - exists (Pos.iter xO p k), (Z.pos (digits2_pos p) - 53)%Z.
    apply binary_round_aux_exact; [|lia].
    rewrite digits2_pos_iter_xO. lia.
Qed.

Lemma count_is_positive_float (n : nat) :
  (0 < n)%nat -> (Z.of_nat n < 2 ^ 53)%Z ->
  exists m e, Prim2SF (s_of_nat n) = S754_finite false m e.
Proof.
  intros Hpos Hsmall. cbn [s_of_nat Scalar_float].
  rewrite of_uint63_spec, Uint63.of_Z_spec.
  rewrite Z.mod_small
    by (split; [lia|]; apply Z.lt_trans with (2 ^ 53)%Z; [exact Hsmall|reflexivity]).
  destruct (Z.of_nat n) as [|p|p] eqn:Hn; [lia| |lia].
  unfold binary_normalize. now apply binary_round_small.
Qed.
End Signs.

Lemma not_nan_Prim2SF (d : float) : is_nan d = false -> Prim2SF d <> S754_nan.
Proof.
  intros Hnan. unfold Prim2SF. rewrite Hnan.
  destruct (is_zero d); [discriminate|].
  destruct (is_infinity d); [discriminate|].
  destruct (Z.frexp d) as [r exp].
  destruct (shr_fexp prec emax _ (exp - prec)%Z SpecFloat.loc_Exact) as [shr e'].
  destruct (shr_m shr); discriminate.
Qed.

(** Finite estimates of a finite true value have no NaN among their
    deviations. *)
Lemma finite_deviations (estimates : list float) (actual : float) :
  Forall (fun e => is_finite e = true) estimates -> is_finite actual = true ->
  Forall (fun e => is_nan (e - actual) = false) estimates.
Proof.
  intros Hfinite Hactual. eapply Forall_impl; [|exact Hfinite].
  intros e He. cbv beta in He.
  pose proof (sub_finite_not_nan e actual He Hactual) as Hsub.
  destruct (is_nan (e - actual)) eqn:Hnan; [|reflexivity].
  exfalso. apply Hsub. unfold Prim2SF. now rewrite Hnan.
Qed.

(** C9, amended.  For every non-empty sequence of binary64 estimates (of
    fewer than [2 ** 53] items, as every array is) none of whose
    deviations [estimate - actual] is NaN, and so for all finite estimates
    of a finite true value, [RMSE] is [>= 0]: a number or [+infinity], and
    not NaN.  The same holds of whatever the call returns, for numpy
    scalars and Python floats alike, and in whatever order numpy adds the
    squares up. *)
Theorem RMSE_never_negative (estimates : list float) (actual : float) :
  estimates <> [] ->
  (Z.of_nat (length estimates) < 2 ^ 53)%Z ->
  Forall (fun e => is_nan (e - actual) = false) estimates ->
  (0 <=? RMSE estimates actual)%float = true /\
  (forall kind v,
      call_RMSE kind estimates actual = Returns v -> (0 <=? v)%float = true) /\
  (forall s,
      summed (map (fun e => square (e - actual)%float) estimates) s ->
      (0 <=? np.sqrt (s / s_of_nat (length estimates))%float)%float = true).
Proof.
  intros Hne Hsmall Hdev.
  assert (Hany : forall s,
             summed (map (fun e => square (e - actual)%float) estimates) s ->
             (0 <=? np.sqrt (s / s_of_nat (length estimates))%float)%float = true).
  { intros s Hs. apply nonneg_leb, sqrt_nonneg.
    destruct (@count_is_positive_float (length estimates)) as (m & e & Hcount);
      [destruct estimates; [contradiction|simpl; lia]|exact Hsmall|].
    eapply div_nonneg; [|exact Hcount].
    apply (summed_nonneg Hs).
    apply Forall_map. eapply Forall_impl; [|exact Hdev].
    intros e0 He0. cbv beta in He0. apply signed_nonneg, square_signed.
    now apply not_nan_Prim2SF. }
  assert (Hrmse : (0 <=? RMSE estimates actual)%float = true).
  { unfold RMSE, np.mean. cbv zeta. rewrite length_map.
    apply Hany. apply np_sum_summed. }
  split; [exact Hrmse|]. split; [|exact Hany].
  intros kind v Hcall. destruct kind.
  - rewrite call_RMSE_numpy in Hcall. now injection Hcall as <-.
  - rewrite call_RMSE_python in Hcall.
    destruct (existsb _ estimates); [discriminate|]. now injection Hcall as <-.
Qed.

(** ** Reproducibility *)

(** A second run carries on from the state the first one left, and need
    not repeat it. *)
Example unseeded_runs_differ :
  let run := SimulateSample (fun _ _ => counting) 0%float 1%float 2 1 in
  fst (run 0%nat) = [0.5%float] /\ fst (run (snd (run 0%nat))) = [2.5%float].
Proof. split; reflexivity. Qed.

(** ** The number of games *)

Section GameCount.
Context {T : Type} `{Scalar T}.
Variable PyRandom : Type.
Variable random_expovariate : T -> PyRandom -> T * PyRandom.

(** C10.  [ManyGames] plays 9999 games, one per index of
    [range(1, 10000)], and not 10000: whenever it gets through its loop,
    [goals] has 9999 entries; it does get through when every game ends
    within the draws allowed, and what it then hands to [RMSE] and to
    [MeanError] is those 9999 counts. *)
Theorem ManyGames_plays_9999_games (fuel : nat) (lam : T) (g : PyRandom) :
  (forall goals g',
      ManyGames_goals random_expovariate fuel lam g = Some (goals, g') ->
      Z.of_nat (length goals) = 9999%Z)
  /\
  ((forall g0, SimulateGame random_expovariate fuel lam g0 <> None) ->
   exists goals g',
     ManyGames_goals random_expovariate fuel lam g = Some (goals, g') /\
     Z.of_nat (length goals) = 9999%Z /\
     Z.of_nat (length goals) <> 10000%Z /\
     ManyGames random_expovariate fuel lam g =
     Some ([Labelled "rmse L" (RMSE (map s_of_nat goals) lam);
            Labelled "mean error L" (MeanError (map s_of_nat goals) lam)], g') /\
     Z.of_nat (length (map (s_of_nat (T:=T)) goals)) = 9999%Z).
Proof.
  assert (Hcount : forall goals g',
             ManyGames_goals random_expovariate fuel lam g = Some (goals, g') ->
             Z.of_nat (length goals) = 9999%Z).
  { intros goals g' Hrun. apply ManyGames_loop_length in Hrun.
    rewrite Hrun, range_length. simpl length. lia. }
  split; [exact Hcount|].
  intros Hends.
  destruct (ManyGames_goals_count random_expovariate fuel lam g Hends)
    as (goals & g' & Hrun & _).
  pose proof (Hcount goals g' Hrun) as Hlen.
  exists goals, g'. split; [exact Hrun|]. split; [exact Hlen|].
  split; [lia|]. split.
  - unfold ManyGames. now rewrite Hrun.
  - now rewrite length_map.
Qed.
End GameCount.

(** ** Instances of the conditional statements *)

(** The estimates 1 and 7 of the true value 4. *)
Lemma RMSE_root_mean_squared_deviation_witness :
  RMSE [1; 7]%R 4%R = root_mean_squared_deviation [1; 7]%R 4%R.
Proof. apply RMSE_root_mean_squared_deviation. discriminate. Defined.

(** One sample of two variates, 0 and 1. *)
Lemma Estimate2_both_variances_witness :
  let ts := trials (counting (T:=R)) 2 1 0%nat in
  Estimate2_loop (fun _ _ => counting (T:=R)) 2 1 0%nat =
  (map population_variance (fst ts), map sample_variance (fst ts), snd ts).
Proof.
  apply (Estimate2_both_variances (fun _ _ => counting (T:=R)) (n:=2) 1 0%nat).
  lia.
Defined.

(** Games of three-quarter intervals: each ends at its second draw. *)
Lemma estimate_sets_and_trials_sized_witness :
  exists goals g',
    ManyGames_goals (fun _ => steady 0.75%float) 2 2%float 0%nat = Some (goals, g') /\
    length goals = length (range 1 10000).
Proof.
  refine (proj2 (proj2 (proj2 (proj2
    (@estimate_sets_and_trials_sized float _ nat nat
       (fun _ _ => counting) (fun _ => steady 0.75%float)
       (fun _ _ => counting) (fun _ => counting)
       (fun _ => 0%float) (fun _ => 0%float) 0.5%float
       3 4 0%float 1%float 2%float 2 0%nat 0%nat)))) _).
  intros g0 Hnone. vm_compute in Hnone. discriminate Hnone.
Defined.

(** The estimates 1 and 2 of the true value 5, shifted by 3. *)
Lemma MeanError_shift_exact_witness :
  MeanError (map (fun e => e + 3)%R [1; 2]%R) 5%R = (MeanError [1; 2]%R 5%R + 3)%R.
Proof. apply MeanError_shift_exact. discriminate. Defined.

(** Goals at 0.25 and 0.75 and a third after the game, in binary64. *)
Lemma SimulateGame_counts_goals_in_unit_interval_witness :
  exists L ds g',
    SimulateGame (fun _ : float => replay) 5 2%float
                 [0.25; 0.5; 0.5; 0.25]%float = Some (L, g') /\
    draw_n replay (S L) [0.25; 0.5; 0.5; 0.25]%float = (ds, g') /\
    map (fun a => s_gtb a (s_of_nat 1)) (running_totals (s_of_nat 0) ds) =
    repeat false L ++ [true] /\
    L = length (filter (fun a => negb (s_gtb a (s_of_nat 1)))
                       (running_totals (s_of_nat 0) ds)).
Proof.
  apply (proj1 SimulateGame_counts_goals_in_unit_interval float _ (list float)
               (fun _ => replay) 5%nat 2%float [0.25; 0.5; 0.5; 0.25]%float).
  reflexivity.
Defined.

(** The estimates 3 and 4 of the true value 0. *)
Lemma RMSE_never_negative_witness :
  (0 <=? RMSE [3; 4]%float 0%float)%float = true /\
  (forall kind v,
      call_RMSE kind [3; 4]%float 0%float = Returns v -> (0 <=? v)%float = true) /\
  (forall s,
      summed (map (fun e => square (e - 0)%float) [3; 4]%float) s ->
      (0 <=? np.sqrt (s / s_of_nat 2)%float)%float = true).
Proof.
  apply RMSE_never_negative.
  - discriminate.
  - reflexivity.
  - apply finite_deviations; [repeat constructor|reflexivity].
Defined.

(** 9999 games of three-quarter intervals. *)
Lemma ManyGames_plays_9999_games_witness :
  exists goals g',
    ManyGames_goals (fun _ => steady 0.75%float) 2 2%float 0%nat = Some (goals, g') /\
    Z.of_nat (length goals) = 9999%Z /\
    Z.of_nat (length goals) <> 10000%Z /\
    ManyGames (fun _ => steady 0.75%float) 2 2%float 0%nat =
    Some ([Labelled "rmse L" (RMSE (map s_of_nat goals) 2%float);
           Labelled "mean error L" (MeanError (map s_of_nat goals) 2%float)], g') /\
    Z.of_nat (length (map (s_of_nat (T:=float)) goals)) = 9999%Z.
Proof.
  apply (proj2 (ManyGames_plays_9999_games (fun _ => steady 0.75%float) 2 2%float 0%nat)).
  intros g0 Hnone. vm_compute in Hnone. discriminate Hnone.
Defined.

(** * Further properties *)

(** ** Sums of reals *)

Section RealSums.
Local Open Scope R_scope.

Lemma Rsum_map_plus (f f' : R -> R) (xs : list R) :
  Rsum (map (fun x => f x + f' x) xs) = Rsum (map f xs) + Rsum (map f' xs).
Proof. induction xs as [|x xs IH]; simpl; [lra|rewrite IH; lra]. Qed.

Lemma Rsum_map_scale (k : R) (f : R -> R) (xs : list R) :
  Rsum (map (fun x => k * f x) xs) = k * Rsum (map f xs).
Proof. induction xs as [|x xs IH]; simpl; [lra|rewrite IH; lra]. Qed.

Lemma Rsum_map_nonneg (f : R -> R) (xs : list R) :
  (forall x, 0 <= f x) -> 0 <= Rsum (map f xs).
Proof.
  intros Hf. induction xs as [|x xs IH]; simpl; [lra|].
  specialize (Hf x). lra.
Qed.

Lemma Rsum_map_zero (f : R -> R) (xs : list R) :
  (forall x, 0 <= f x) -> Rsum (map f xs) = 0 -> Forall (fun x => f x = 0) xs.
Proof.
  intros Hf. induction xs as [|x xs IH]; simpl; intros Hsum; [constructor|].
  pose proof (Hf x) as Hx. pose proof (Rsum_map_nonneg f xs Hf) as Hrest.
  constructor; [lra|]. apply IH. lra.
Qed.

Lemma Rsum_map_le (f : R -> R) (d : R) (xs : list R) :
  (forall x, In x xs -> f x <= d) -> Rsum (map f xs) <= INR (length xs) * d.
Proof.
  induction xs as [|x xs IH]; intros Hf; [simpl; lra|].
  change (length (x :: xs)) with (S (length xs)). rewrite S_INR. simpl.
  assert (Hx : f x <= d) by (apply Hf; now left).
  assert (Hrest : Rsum (map f xs) <= INR (length xs) * d)
    by (apply IH; intros y Hy; apply Hf; now right).
  lra.
Qed.

(** Squared deviations from [c], expanded. *)
Lemma Rsum_sq_dev (c : R) (xs : list R) :
  Rsum (map (fun x => (x - c) * (x - c)) xs) =
  Rsum (map (fun x => x * x) xs) - 2 * c * Rsum xs + INR (length xs) * (c * c).
Proof.
  induction xs as [|x xs IH]; [simpl; lra|].
  change (length (x :: xs)) with (S (length xs)). rewrite S_INR. simpl.
  rewrite IH. ring.
Qed.

Lemma Rsum_dev (c : R) (xs : list R) :
  Rsum (map (fun x => x - c) xs) = Rsum xs - INR (length xs) * c.
Proof.
  induction xs as [|x xs IH]; [simpl; lra|].
  change (length (x :: xs)) with (S (length xs)). rewrite S_INR. simpl.
  rewrite IH. ring.
Qed.

Lemma nonempty_INR_pos (A : Type) (xs : list A) : xs <> [] -> 0 < INR (length xs).
Proof.
  intros Hne. destruct xs as [|x xs]; [contradiction|].
  apply lt_0_INR. simpl. lia.
Qed.

(** The three summaries over the reals, as sums. *)
Lemma RMSE_R (estimates : list R) (actual : R) :
  RMSE estimates actual =
  R_sqrt.sqrt (Rsum (map (fun e => (e - actual) * (e - actual)) estimates)
               / INR (length estimates)).
Proof.
  unfold RMSE, np.sqrt, square. cbv zeta. rewrite np_mean_R. unfold Rmean.
  now rewrite length_map.
Qed.

Lemma MeanError_R (estimates : list R) (actual : R) :
  MeanError estimates actual =
  Rsum (map (fun e => e - actual) estimates) / INR (length estimates).
Proof.
  unfold MeanError. cbv zeta. rewrite np_mean_R. unfold Rmean.
  now rewrite length_map.
Qed.

Lemma np_var_0_sum (xs : list R) :
  np.var 0 xs =
  Rsum (map (fun x => (x - Rmean xs) * (x - Rmean xs)) xs) / INR (length xs).
Proof.
  unfold np.var. cbv zeta. rewrite Nat.sub_0_r, map_map, !np_sum_R. reflexivity.
Qed.

Lemma np_var_1_sum (xs : list R) :
  (1 <= length xs)%nat ->
  np.var 1 xs =
  Rsum (map (fun x => (x - Rmean xs) * (x - Rmean xs)) xs) / (INR (length xs) - 1).
Proof.
  intros Hlen. unfold np.var. cbv zeta. rewrite map_map, !np_sum_R.
  simpl s_of_nat. rewrite minus_INR by exact Hlen. reflexivity.
Qed.

Lemma mean_squared_error_nonneg (estimates : list R) (actual : R) :
  estimates <> [] ->
  0 <= Rsum (map (fun e => (e - actual) * (e - actual)) estimates)
       / INR (length estimates).
Proof.
  intros Hne. apply nonempty_INR_pos in Hne.
  apply Rmult_le_pos.
  - apply Rsum_map_nonneg. intros x. exact (Rle_0_sqr _).
  - left. now apply Rinv_0_lt_compat.
Qed.

(** Mean squared error is squared mean error plus the variance of the
    estimates. *)
Lemma mean_squared_error_split (estimates : list R) (actual : R) :
  estimates <> [] ->
  Rsum (map (fun e => (e - actual) * (e - actual)) estimates)
  / INR (length estimates) =
  (Rsum (map (fun e => e - actual) estimates) / INR (length estimates)) ^ 2
  + Rsum (map (fun e => (e - Rmean estimates) * (e - Rmean estimates)) estimates)
    / INR (length estimates).
Proof.
  intros Hne. apply nonempty_INR in Hne.
  rewrite !Rsum_sq_dev, Rsum_dev. unfold Rmean. field. exact Hne.
Qed.

Lemma abs_MeanError_le_RMSE (estimates : list R) (actual : R) :
  estimates <> [] ->
  Rabs (MeanError estimates actual) <= RMSE estimates actual.
Proof.
  intros Hne. rewrite RMSE_R, MeanError_R.
  rewrite (mean_squared_error_split actual Hne).
  set (me := Rsum (map (fun e => e - actual) estimates) / INR (length estimates)).
  set (v := Rsum (map (fun e => (e - Rmean estimates) * (e - Rmean estimates))
                      estimates) / INR (length estimates)).
  assert (Hv : 0 <= v).
  { unfold v. apply Rmult_le_pos.
    - apply Rsum_map_nonneg. intros x. exact (Rle_0_sqr _).
    - left. apply Rinv_0_lt_compat. now apply nonempty_INR_pos. }
  rewrite <- sqrt_Rsqr_abs. apply sqrt_le_1_alt. unfold Rsqr. nra.
Qed.
End RealSums.

(** ** RMSE and MeanError, in exact arithmetic *)

Section SummaryLaws.
Local Open Scope R_scope.

(** X1.  The root mean squared error of a non-empty sequence is zero
    exactly when every estimate is the true value. *)
Theorem RMSE_zero_iff_all_exact (estimates : list R) (actual : R) :
  estimates <> [] ->
  (RMSE estimates actual = 0 <-> Forall (fun e => e = actual) estimates).
Proof.
  intros Hne. pose proof (nonempty_INR_pos Hne) as Hn. rewrite RMSE_R. split.
  - intros Hzero. apply sqrt_eq_0 in Hzero;
      [|now apply mean_squared_error_nonneg].
    assert (Hsum : Rsum (map (fun e => (e - actual) * (e - actual)) estimates) = 0).
    { apply (Rmult_eq_reg_r (/ INR (length estimates)));
        [|apply Rinv_neq_0_compat; lra].
      unfold Rdiv in Hzero. lra. }
    apply Rsum_map_zero in Hsum; [|intros x; exact (Rle_0_sqr _)].
    eapply Forall_impl; [|exact Hsum]. intros e He. cbv beta in He. nra.
  - intros Hall. rewrite Forall_forall in Hall.
    assert (Hsum : Rsum (map (fun e => (e - actual) * (e - actual)) estimates) = 0).
    { apply Rle_antisym.
      - replace 0 with (INR (length estimates) * 0) by ring.
        apply Rsum_map_le. intros e He. rewrite (Hall e He). lra.
      - apply Rsum_map_nonneg. intros x. exact (Rle_0_sqr _). }
    rewrite Hsum. unfold Rdiv. rewrite Rmult_0_l. apply sqrt_0.
Qed.

(** X2.  The mean error of a non-empty sequence is the mean of the
    estimates less the true value. *)
Theorem MeanError_is_mean_less_actual (estimates : list R) (actual : R) :
  estimates <> [] ->
  MeanError estimates actual = np.mean estimates - actual.
Proof.
  intros Hne. apply nonempty_INR in Hne.
  rewrite MeanError_R, Rsum_dev, np_mean_R. unfold Rmean. field. exact Hne.
Qed.

(** X3.  Mean squared error splits into bias and variance: on a non-empty
    sequence the square of [RMSE] is the square of [MeanError] plus the
    population variance [np.var] of the estimates. *)
Theorem squared_RMSE_is_bias_plus_variance (estimates : list R) (actual : R) :
  estimates <> [] ->
  RMSE estimates actual ^ 2 = MeanError estimates actual ^ 2 + np.var 0 estimates.
Proof.
  intros Hne. rewrite RMSE_R, MeanError_R, np_var_0_sum.
  rewrite pow2_sqrt by now apply mean_squared_error_nonneg.
  now apply mean_squared_error_split.
Qed.

(** X4.  The mean error of a non-empty sequence is never larger in size
    than its root mean squared error. *)
Theorem MeanError_within_RMSE (estimates : list R) (actual : R) :
  estimates <> [] ->
  Rabs (MeanError estimates actual) <= RMSE estimates actual.
Proof. apply abs_MeanError_le_RMSE. Qed.

(** X5.  A change of unit [e -> k * e + c], made to the estimates and to
    the true value alike, multiplies [RMSE] by [|k|] and [MeanError] by
    [k]; a shift alone changes neither. *)
Theorem summaries_under_change_of_unit (estimates : list R) (actual k c : R) :
  estimates <> [] ->
  RMSE (map (fun e => k * e + c) estimates) (k * actual + c) =
  Rabs k * RMSE estimates actual
  /\
  MeanError (map (fun e => k * e + c) estimates) (k * actual + c) =
  k * MeanError estimates actual.
Proof.
  intros Hne. split.
  - rewrite !RMSE_R, map_map, length_map.
    rewrite (Rsum_map_ext
               (fun e => (k * e + c - (k * actual + c)) * (k * e + c - (k * actual + c)))
               (fun e => (k * k) * ((e - actual) * (e - actual))))
      by (intros e; ring).
    rewrite Rsum_map_scale. unfold Rdiv. rewrite Rmult_assoc.
    rewrite sqrt_mult_alt by (exact (Rle_0_sqr k)).
    fold (Rsqr k). now rewrite sqrt_Rsqr_abs.
  - rewrite !MeanError_R, map_map, length_map.
    rewrite (Rsum_map_ext (fun e => k * e + c - (k * actual + c))
                          (fun e => k * (e - actual)))
      by (intros e; ring).
    rewrite Rsum_map_scale. unfold Rdiv. ring.
Qed.

(** X6.  When every estimate of a non-empty sequence is within [d] of the
    true value, so are the summaries: [RMSE] is at most [d], and
    [MeanError] is between [-d] and [d]. *)
Theorem summaries_within_worst_error (estimates : list R) (actual d : R) :
  estimates <> [] ->
  (forall e, In e estimates -> Rabs (e - actual) <= d) ->
  RMSE estimates actual <= d /\ Rabs (MeanError estimates actual) <= d.
Proof.
  intros Hne Hd.
  assert (Hd0 : 0 <= d).
  { destruct estimates as [|e0 rest]; [contradiction|].
    pose proof (Hd e0 (or_introl eq_refl)) as He0.
    pose proof (Rabs_pos (e0 - actual)). lra. }
  assert (Hrmse : RMSE estimates actual <= d).
  { rewrite RMSE_R. rewrite <- (sqrt_Rsqr d Hd0). apply sqrt_le_1_alt.
    pose proof (nonempty_INR_pos Hne) as Hn.
    apply (Rmult_le_reg_r (INR (length estimates))); [exact Hn|].
    unfold Rdiv. rewrite Rmult_assoc, Rinv_l, Rmult_1_r by lra.
    rewrite Rmult_comm. apply Rsum_map_le. intros e He.
    specialize (Hd e He). unfold Rsqr.
    pose proof (Rabs_pos (e - actual)) as Hpos.
    replace ((e - actual) * (e - actual))
      with (Rabs (e - actual) * Rabs (e - actual))
      by (unfold Rabs; destruct (Rcase_abs (e - actual)); ring).
    nra. }
  split; [exact Hrmse|].
  eapply Rle_trans; [now apply abs_MeanError_le_RMSE|exact Hrmse].
Qed.
End SummaryLaws.

(** ** The two variance estimates *)

Section VarianceLaws.
Local Open Scope R_scope.
Variable PyRandom : Type.
Variable random_gauss : R -> R -> PyRandom -> R * PyRandom.

Lemma np_var_pair (xs : list R) :
  (2 <= length xs)%nat ->
  np.var 0 xs = (INR (length xs) - 1) / INR (length xs) * np.var 1 xs /\
  0 <= np.var 0 xs <= np.var 1 xs.
Proof.
  intros Hlen. rewrite np_var_0_sum, np_var_1_sum by lia.
  set (S := Rsum (map (fun x => (x - Rmean xs) * (x - Rmean xs)) xs)).
  assert (HS : 0 <= S)
    by (apply Rsum_map_nonneg; intros x; exact (Rle_0_sqr _)).
  assert (Hn : 2 <= INR (length xs)) by (apply (le_INR 2); exact Hlen).
  assert (Hinv : / INR (length xs) <= / (INR (length xs) - 1))
    by (apply Rinv_le_contravar; lra).
  assert (Hpos : 0 < / INR (length xs)) by (apply Rinv_0_lt_compat; lra).
  split; [field; lra|]. unfold Rdiv. split; nra.
Qed.

Lemma Forall2_map_same (A B : Type) (P : B -> B -> Prop) (f f' : A -> B)
    (l : list A) :
  Forall (fun x => P (f x) (f' x)) l -> Forall2 P (map f l) (map f' l).
Proof. induction 1; simpl; constructor; assumption. Qed.

(** X7.  In [Estimate2], with samples of two variates or more, the biased
    estimate of every sample is [(n - 1) / n] times the unbiased estimate
    of the same sample, and lies between zero and it. *)
Theorem Estimate2_biased_below_unbiased (n iters : nat) (g : PyRandom) :
  (2 <= n)%nat ->
  let '(estimates1, estimates2, _) := Estimate2_loop random_gauss n iters g in
  Forall2 (fun biased unbiased =>
             biased = (INR n - 1) / INR n * unbiased /\
             0 <= biased <= unbiased)
          estimates1 estimates2.
Proof.
  intros Hn. rewrite Estimate2_loop_trials. cbv beta iota zeta.
  apply Forall2_map_same.
  eapply Forall_impl;
    [|exact (trials_size (random_gauss (s_of_nat 0) (s_of_nat 1)) n iters g)].
  intros xs Hxs. cbv beta in Hxs. rewrite <- Hxs. apply np_var_pair. lia.
Qed.

Lemma MeanError_scaled (k a : R) (us : list R) :
  us <> [] ->
  MeanError (map (fun u => k * u) us) a = k * MeanError us a + (k - 1) * a.
Proof.
  intros Hne. apply nonempty_INR in Hne.
  rewrite !MeanError_R, !Rsum_dev, length_map.
  rewrite (Rsum_map_scale k (fun u => u)), map_id.
  field. exact Hne.
Qed.

(** X8.  The two mean errors [Estimate2] prints are tied to each other:
    with [n >= 2] and at least one iteration, the mean error of the biased
    estimates is [(n - 1) / n] times that of the unbiased ones, less
    [1 / n]. *)
Theorem Estimate2_mean_errors_tied (n iters : nat) (g : PyRandom) :
  (2 <= n)%nat -> (1 <= iters)%nat ->
  exists biased unbiased g',
    Estimate2 random_gauss n iters g =
    ([Labelled "mean error biased" biased;
      Labelled "mean error unbiased" unbiased], g') /\
    biased = (INR n - 1) / INR n * unbiased - 1 / INR n.
Proof.
  intros Hn Hiters. unfold Estimate2. rewrite Estimate2_loop_trials.
  cbv beta iota zeta.
  set (ts := trials (random_gauss (s_of_nat 0) (s_of_nat 1)) n iters g).
  do 3 eexists. split; [reflexivity|].
  assert (Hmap : map (np.var 0) (fst ts) =
                 map (fun u => (INR n - 1) / INR n * u) (map (np.var 1) (fst ts))).
  { rewrite map_map. apply map_ext_in. intros xs Hin.
    pose proof (trials_size (random_gauss (s_of_nat 0) (s_of_nat 1)) n iters g) as Hsize.
    rewrite Forall_forall in Hsize. specialize (Hsize xs Hin). cbv beta in Hsize.
    rewrite <- Hsize. apply np_var_pair. lia. }
  rewrite Hmap, MeanError_scaled.
  - assert (HnR : 2 <= INR n) by (apply (le_INR 2); exact Hn).
    unfold square. simpl s_of_nat. simpl s_mul. field. lra.
  - intros Hnil. apply (f_equal (@length R)) in Hnil.
    rewrite length_map in Hnil. unfold ts in Hnil.
    rewrite trials_count in Hnil. simpl in Hnil. lia.
Qed.
End VarianceLaws.

(** ** The variates an experiment uses *)

Section Streams.
Context {A G : Type}.
Variable draw : G -> A * G.

Lemma draw_n_app (a b : nat) (g : G) :
  draw_n draw (a + b) g =
  (fst (draw_n draw a g) ++ fst (draw_n draw b (snd (draw_n draw a g))),
   snd (draw_n draw b (snd (draw_n draw a g)))).
Proof.
  revert g. induction a as [|a IH]; intros g; simpl.
  - now destruct (draw_n draw b g).
  - destruct (draw g) as [x g1]. rewrite IH.
    destruct (draw_n draw a g1) as [xs g2]. reflexivity.
Qed.

(** The samples of an experiment, laid end to end, are the first
    [iters * n] variates of the generator. *)
Lemma draw_blocks (n iters : nat) (g : G) :
  (concat (fst (draw_n (draw_n draw n) iters g)),
   snd (draw_n (draw_n draw n) iters g)) =
  draw_n draw (iters * n) g.
Proof.
  revert g. induction iters as [|iters IH]; intros g; [reflexivity|].
  change (S iters * n)%nat with (n + iters * n)%nat. rewrite draw_n_app.
  simpl. destruct (draw_n draw n g) as [xs g1]. simpl.
  rewrite <- IH.
  destruct (draw_n (draw_n draw n) iters g1) as [rest g2]. reflexivity.
Qed.
End Streams.

Section Consumption.
Context {T : Type} `{Scalar T}.
Variables PyRandom NpRandom : Type.
Variable random_gauss : T -> T -> PyRandom -> T * PyRandom.
Variable random_expovariate : T -> PyRandom -> T * PyRandom.
Variable np_random_normal : T -> T -> NpRandom -> T * NpRandom.
Variable np_random_exponential : T -> NpRandom -> T * NpRandom.
Variable np_median : list T -> T.
Variable thinkstats2_Median : list T -> T.
Variable np_log_2 : T.

Lemma trials_blocks {G : Type} (draw : G -> T * G) (n iters : nat) (g : G) :
  concat (fst (trials draw n iters g)) = fst (draw_n draw (iters * n) g) /\
  snd (trials draw n iters g) = snd (draw_n draw (iters * n) g).
Proof.
  unfold trials. rewrite <- draw_blocks. split; reflexivity.
Qed.

(** X9.  Each experiment makes its estimates from consecutive blocks of
    the generator's variates, each variate in exactly one sample: there is
    a list of [iters] samples of [n] items each, which laid end to end are
    the next [iters * n] variates of the generator, whose estimates are
    the experiment's estimate sets; and the generator is left right after
    those variates.  [Estimate1] and [Estimate2], started from the same
    state, work on the same samples and leave the same state. *)
Theorem experiments_use_variates_once
    (n iters : nat) (mu sigma : T) (g : PyRandom) (h : NpRandom) :
  (let stream := draw_n (random_gauss (s_of_nat 0) (s_of_nat 1)) (iters * n) g in
   exists samples,
     concat samples = fst stream /\
     length samples = iters /\ Forall (fun xs => length xs = n) samples /\
     Estimate1_loop random_gauss np_median n iters g =
     (map np.mean samples, map np_median samples, snd stream) /\
     Estimate2_loop random_gauss n iters g =
     (map (np.var 0) samples, map (np.var 1) samples, snd stream))
  /\
  (let stream :=
     draw_n (np_random_exponential (s_of_nat 1 / s_of_nat 2)%sc) (iters * n) h in
   exists samples,
     concat samples = fst stream /\
     length samples = iters /\ Forall (fun xs => length xs = n) samples /\
     Estimate3_loop np_random_exponential thinkstats2_Median np_log_2 n iters h =
     (map Estimate3_L samples,
      map (Estimate3_Lm thinkstats2_Median np_log_2) samples, snd stream))
  /\
  (let stream := draw_n (np_random_normal mu sigma) (iters * n) h in
   exists samples,
     concat samples = fst stream /\
     length samples = iters /\ Forall (fun xs => length xs = n) samples /\
     SimulateSample np_random_normal mu sigma n iters h =
     (map np.mean samples, snd stream)).
Proof.
  cbv zeta.
  rewrite Estimate1_loop_trials, Estimate2_loop_trials, Estimate3_loop_trials,
    SimulateSample_trials.
  cbv zeta.
  split; [|split].
  - exists (fst (trials (random_gauss (s_of_nat 0) (s_of_nat 1)) n iters g)).
    destruct (trials_blocks (random_gauss (s_of_nat 0) (s_of_nat 1)) n iters g)
      as [Hcat ->].
    repeat split; [exact Hcat|apply trials_count|apply trials_size].
  - exists (fst (trials (np_random_exponential (s_of_nat 1 / s_of_nat 2)%sc)
                        n iters h)).
    destruct (trials_blocks (np_random_exponential (s_of_nat 1 / s_of_nat 2)%sc)
                            n iters h) as [Hcat ->].
    repeat split; [exact Hcat|apply trials_count|apply trials_size].
  - exists (fst (trials (np_random_normal mu sigma) n iters h)).
    destruct (trials_blocks (np_random_normal mu sigma) n iters h) as [Hcat ->].
    repeat split; [exact Hcat|apply trials_count|apply trials_size].
Qed.

Lemma SimulateGame_draws (fuel : nat) (lam : T) (g : PyRandom) L g' :
  SimulateGame random_expovariate fuel lam g = Some (L, g') ->
  g' = snd (draw_n (random_expovariate lam) (S L) g).
Proof.
  intros Hrun. apply SimulateGame_loop_trace in Hrun.
  destruct Hrun as (k & ds & -> & Hdraw & _). simpl plus. now rewrite Hdraw.
Qed.

Lemma ManyGames_loop_draws (fuel : nat) (lam : T) (idx : list Z) :
  forall acc g goals g',
    ManyGames_loop random_expovariate fuel lam idx acc g = Some (goals, g') ->
    exists new,
      goals = acc ++ new /\ length new = length idx /\
      g' = snd (draw_n (random_expovariate lam) (list_sum new + length new) g).
Proof.
  induction idx as [|i idx IH]; intros acc g goals g' Hrun; simpl in Hrun.
  - injection Hrun as <- <-. exists []. now rewrite app_nil_r.
  - destruct (SimulateGame random_expovariate fuel lam g) as [[L g1]|] eqn:Hgame;
      [|discriminate].
    apply SimulateGame_draws in Hgame. subst g1.
    apply IH in Hrun as (new & -> & Hlen & ->).
    exists (L :: new). split; [now rewrite <- app_assoc|].
    split; [simpl; now rewrite Hlen|].
    replace (list_sum (L :: new) + length (L :: new))
      with (S L + (list_sum new + length new)) by (simpl; lia).
    now rewrite (draw_n_app _ (S L)).
Qed.

(** X11.  A game that returns [L] goals has drawn [L + 1] times, so the
    loop of [ManyGames] (which [ManyGames] runs over [range(1, 10000)])
    leaves the generator advanced by the total of its goal counts plus one
    draw for every game. *)
Theorem ManyGames_draws (fuel : nat) (lam : T) (idx : list Z) (g : PyRandom)
    goals g' :
  ManyGames_loop random_expovariate fuel lam idx [] g = Some (goals, g') ->
  length goals = length idx /\
  g' = snd (draw_n (random_expovariate lam) (list_sum goals + length goals) g).
Proof.
  intros Hrun. apply ManyGames_loop_draws in Hrun.
  destruct Hrun as (new & -> & Hlen & ->). split; [exact Hlen|reflexivity].
Qed.
End Consumption.

(** ** The same variates, the same estimates *)

Section SameVariates.
Context {T : Type} `{Scalar T}.

Lemma app_same_length (A : Type) (x y a b : list A) :
  length x = length y -> x ++ a = y ++ b -> x = y /\ a = b.
Proof.
  revert y. induction x as [|u x IH]; intros [|v y] Hlen Heq;
    try discriminate; [now split|].
  simpl in Heq. injection Heq as -> Heq. injection Hlen as Hlen.
  destruct (IH y Hlen Heq) as [-> ->]. now split.
Qed.

(** A list of blocks of one size is fixed by the blocks laid end to end. *)
Lemma blocks_unique (A : Type) (n : nat) (l1 l2 : list (list A)) :
  Forall (fun xs => length xs = n) l1 ->
  Forall (fun xs => length xs = n) l2 ->
  length l1 = length l2 ->
  concat l1 = concat l2 -> l1 = l2.
Proof.
  intros H1. revert l2. induction H1 as [|x l1 Hx H1 IH];
    intros [|y l2] H2 Hlen Heq; try discriminate; [reflexivity|].
  inversion H2 as [|? ? Hy H2']; subst. simpl in Heq.
  apply app_same_length in Heq; [|congruence].
  destruct Heq as [-> Heq]. f_equal. apply IH; auto.
Qed.

Lemma same_variates_same_trials {G1 G2 : Type}
    (draw1 : G1 -> T * G1) (draw2 : G2 -> T * G2) (n iters : nat) g1 g2 :
  fst (draw_n draw1 (iters * n) g1) = fst (draw_n draw2 (iters * n) g2) ->
  fst (trials draw1 n iters g1) = fst (trials draw2 n iters g2).
Proof.
  intros Hsame. apply (blocks_unique (n:=n)).
  - apply trials_size.
  - apply trials_size.
  - now rewrite !trials_count.
  - destruct (trials_blocks draw1 n iters g1) as [-> _].
    destruct (trials_blocks draw2 n iters g2) as [-> _]. exact Hsame.
Qed.

Variables PyRandom1 PyRandom2 NpRandom1 NpRandom2 : Type.
Variable random_gauss1 : T -> T -> PyRandom1 -> T * PyRandom1.
Variable random_gauss2 : T -> T -> PyRandom2 -> T * PyRandom2.
Variable np_random_normal1 : T -> T -> NpRandom1 -> T * NpRandom1.
Variable np_random_normal2 : T -> T -> NpRandom2 -> T * NpRandom2.
Variable np_random_exponential1 : T -> NpRandom1 -> T * NpRandom1.
Variable np_random_exponential2 : T -> NpRandom2 -> T * NpRandom2.
Variable np_median : list T -> T.
Variable thinkstats2_Median : list T -> T.
Variable np_log_2 : T.

(** C5.  The estimate sets depend on the generator through the variates
    it delivers and through nothing else.  Two runs with the same
    parameters whose generators deliver the same [iters * n] variates, as
    one generator seeded twice with the same seed does, and as two
    different generators may, produce the same estimate sets, element for
    element.  This holds of the loops of [Estimate1], [Estimate2] and
    [Estimate3], of what [Estimate1] and [Estimate2] print, and of
    [SimulateSample]. *)
Theorem same_variates_same_estimates (n iters : nat) (mu sigma : T)
    (g1 : PyRandom1) (g2 : PyRandom2) (h1 k1 : NpRandom1) (h2 k2 : NpRandom2) :
  fst (draw_n (random_gauss1 (s_of_nat 0) (s_of_nat 1)) (iters * n) g1) =
  fst (draw_n (random_gauss2 (s_of_nat 0) (s_of_nat 1)) (iters * n) g2) ->
  fst (draw_n (np_random_normal1 mu sigma) (iters * n) h1) =
  fst (draw_n (np_random_normal2 mu sigma) (iters * n) h2) ->
  fst (draw_n (np_random_exponential1 (s_of_nat 1 / s_of_nat 2)%sc) (iters * n) k1) =
  fst (draw_n (np_random_exponential2 (s_of_nat 1 / s_of_nat 2)%sc) (iters * n) k2) ->
  fst (Estimate1_loop random_gauss1 np_median n iters g1) =
  fst (Estimate1_loop random_gauss2 np_median n iters g2)
  /\
  fst (Estimate1 random_gauss1 np_median n iters g1) =
  fst (Estimate1 random_gauss2 np_median n iters g2)
  /\
  fst (Estimate2_loop random_gauss1 n iters g1) =
  fst (Estimate2_loop random_gauss2 n iters g2)
  /\
  fst (Estimate2 random_gauss1 n iters g1) =
  fst (Estimate2 random_gauss2 n iters g2)
  /\
  fst (Estimate3_loop np_random_exponential1 thinkstats2_Median np_log_2
                      n iters k1) =
  fst (Estimate3_loop np_random_exponential2 thinkstats2_Median np_log_2
                      n iters k2)
  /\
  fst (SimulateSample np_random_normal1 mu sigma n iters h1) =
  fst (SimulateSample np_random_normal2 mu sigma n iters h2).
Proof.
  intros Hgauss Hnormal Hexp.
  apply (same_variates_same_trials _ _ n iters) in Hgauss.
  apply (same_variates_same_trials _ _ n iters) in Hnormal.
  apply (same_variates_same_trials _ _ n iters) in Hexp.
  unfold Estimate1, Estimate2.
  rewrite !Estimate1_loop_trials, !Estimate2_loop_trials,
    !Estimate3_loop_trials, !SimulateSample_trials.
  cbv beta iota zeta. cbn [fst]. rewrite Hgauss, Hnormal, Hexp. repeat split.
Qed.
End SameVariates.

(** ** How long a game can last *)

Section GameLength.
Local Open Scope R_scope.
Variable PyRandom : Type.
Variable random_expovariate : R -> PyRandom -> R * PyRandom.

Lemma running_totals_length (t : R) (ds : list R) :
  length (running_totals t ds) = length ds.
Proof.
  revert t. induction ds as [|d ds IH]; intros t; simpl; [reflexivity|].
  now rewrite IH.
Qed.

(** With every time between goals at least [delta], the clock is at least
    [k * delta] past its start after the [k]-th goal. *)
Lemma running_totals_lower (delta : R) (ds : list R) :
  Forall (fun d => delta <= d) ds ->
  forall t i a,
    nth_error (running_totals t ds) i = Some a -> t + INR (S i) * delta <= a.
Proof.
  induction 1 as [|d ds Hd Hds IH]; intros t i a Hnth.
  - now destruct i.
  - destruct i as [|i]; simpl in Hnth.
    + injection Hnth as <-. simpl. lra.
    + apply IH in Hnth. rewrite (S_INR (S i)). lra.
Qed.

(** A game that ends has used no more draws than it was allowed. *)
Lemma SimulateGame_loop_within (fuel : nat) (lam : R) :
  forall goals t g L g',
    SimulateGame_loop random_expovariate fuel lam goals t g = Some (L, g') ->
    (L - goals < fuel)%nat.
Proof.
  induction fuel as [|fuel IH]; intros goals t g L g' Hrun;
    cbn [SimulateGame_loop] in Hrun; [discriminate|].
  destruct (random_expovariate lam g) as [d g1].
  destruct (s_gtb (s_add t d) (s_of_nat 1)).
  - injection Hrun as <- _. lia.
  - apply IH in Hrun. lia.
Qed.

(** X12.  When the times between goals that a game drew are all at least
    [delta > 0], the count it returns is at most [1 / delta].  And when
    the next [fuel] variates of the generator are all at least [delta] and
    [fuel] of them take the clock past 1, the game is over within those
    draws. *)
Theorem SimulateGame_goals_bounded
    (fuel : nat) (lam delta : R) (g : PyRandom) :
  0 < delta ->
  (forall L g',
      SimulateGame random_expovariate fuel lam g = Some (L, g') ->
      Forall (fun d => delta <= d)
             (fst (draw_n (random_expovariate lam) (S L) g)) ->
      INR L * delta <= 1)
  /\
  (Forall (fun d => delta <= d) (fst (draw_n (random_expovariate lam) fuel g)) ->
   1 < INR fuel * delta ->
   exists L g',
     SimulateGame random_expovariate fuel lam g = Some (L, g') /\
     INR L * delta <= 1 /\ (L < fuel)%nat).
Proof.
  intros Hdelta.
  assert (Hbound : forall L g',
             SimulateGame random_expovariate fuel lam g = Some (L, g') ->
             Forall (fun d => delta <= d)
                    (fst (draw_n (random_expovariate lam) (S L) g)) ->
             INR L * delta <= 1).
  { intros L g' Hrun Hds. apply SimulateGame_loop_trace in Hrun.
    destruct Hrun as (k & ds & Hk & Hdraw & Hmap). simpl plus in Hk. subst L.
    rewrite Hdraw in Hds. cbn [fst] in Hds.
    destruct k as [|k]; [simpl; lra|].
    assert (Hfalse : nth_error (map (fun a => s_gtb a (s_of_nat 1))
                                    (running_totals (s_of_nat 0) ds)) k
                     = Some false).
    { rewrite Hmap, nth_error_app1 by (rewrite repeat_length; lia).
      apply nth_error_repeat. lia. }
    rewrite nth_error_map in Hfalse.
    destruct (nth_error (running_totals (s_of_nat 0) ds) k) as [a|] eqn:Hnth;
      [|discriminate].
    simpl in Hfalse. destruct (Rgt_dec a 1) as [|Hle]; [discriminate|].
    apply (running_totals_lower Hds) in Hnth. simpl s_of_nat in Hnth. lra. }
  split; [exact Hbound|].
  intros Hslow Hfuel.
  assert (Hends : SimulateGame random_expovariate fuel lam g <> None).
  { apply SimulateGame_loop_ends, passes_unit_existsb, Exists_exists.
    destruct fuel as [|fuel]; [simpl in Hfuel; lra|].
    set (ds := fst (draw_n (random_expovariate lam) (S fuel) g)) in *.
    destruct (nth_error (running_totals (s_of_nat 0) ds) fuel) as [a|] eqn:Hnth.
    - exists a. split; [now apply nth_error_In in Hnth|].
      apply (running_totals_lower Hslow) in Hnth.
      simpl s_of_nat in Hnth. lra.
    - apply nth_error_None in Hnth.
      rewrite running_totals_length in Hnth. unfold ds in Hnth.
      rewrite draw_n_length in Hnth. lia. }
  destruct (SimulateGame random_expovariate fuel lam g) as [[L g']|] eqn:Hrun;
    [|contradiction].
  exists L, g'. split; [reflexivity|].
  pose proof (SimulateGame_loop_within _ _ _ _ _ Hrun) as Hwithin.
  rewrite Nat.sub_0_r in Hwithin.
  split; [|exact Hwithin].
  apply (Hbound L g' eq_refl).
  replace fuel with (S L + (fuel - S L))%nat in Hslow by lia.
  rewrite draw_n_app in Hslow. cbn [fst] in Hslow.
  apply Forall_app in Hslow. now destruct Hslow as [Hslow _].
Qed.
End GameLength.

(** ** One exact estimate, in binary64 *)

Section ExactEstimate.
Local Open Scope float_scope.

Lemma float_sub_self (a : float) :
  is_nan a = false -> is_infinity a = false -> a - a = 0.
Proof.
  intros Hnan Hinf. apply Prim2SF_inj. rewrite sub_spec.
  change (Prim2SF 0) with (S754_zero false).
  remember (Prim2SF a) as x eqn:Hx. unfold Prim2SF in Hx.
  rewrite Hnan, Hinf in Hx.
  destruct (is_zero a).
  - subst x. now destruct (get_sign a).
  - destruct (Z.frexp a) as [r exp].
    destruct (shr_fexp prec emax _ (exp - prec)%Z SpecFloat.loc_Exact) as [shr e'].
    destruct (shr_m shr) as [|p|p]; subst x; try reflexivity.
    unfold SF64sub, SFsub. now rewrite Z.sub_diag.
Qed.

Lemma float_not_finite (a : float) :
  is_finite a = false -> a = nan \/ a = infinity \/ a = neg_infinity.
Proof.
  unfold is_finite. intros Hfin.
  destruct (is_nan a) eqn:Hnan.
  - left. apply Prim2SF_inj. unfold Prim2SF at 1. now rewrite Hnan.
  - simpl in Hfin. apply Bool.negb_false_iff in Hfin. right.
    assert (Hx : Prim2SF a = S754_infinity (get_sign a)).
    { unfold Prim2SF. rewrite Hnan, Hfin.
      destruct (is_zero a) eqn:Hzero; [|reflexivity].
      exfalso. unfold is_infinity in Hfin.
      rewrite FloatAxioms.eqb_spec, abs_spec in Hfin.
      unfold Prim2SF at 1 in Hfin. rewrite Hnan, Hzero in Hfin.
      discriminate Hfin. }
    destruct (get_sign a); [right|left]; apply Prim2SF_inj; now rewrite Hx.
Qed.

(** X13.  A single estimate that is the true value itself has error zero
    when it is a finite number: [RMSE([a], a)] and [MeanError([a], a)] are
    [0.0].  When it is an infinity or NaN, both are NaN. *)
Theorem single_exact_estimate (a : float) :
  (is_finite a = true -> RMSE [a] a = 0 /\ MeanError [a] a = 0) /\
  (is_finite a = false -> RMSE [a] a = nan /\ MeanError [a] a = nan).
Proof.
  split.
  - unfold is_finite. intros Hfin. apply Bool.negb_true_iff in Hfin.
    apply Bool.orb_false_iff in Hfin. destruct Hfin as [Hnan Hinf].
    pose proof (float_sub_self Hnan Hinf) as Hsub.
    change (RMSE [a] a)
      with (PrimFloat.sqrt ((0 + (a - a) * (a - a)) / 1)).
    change (MeanError [a] a) with ((0 + (a - a)) / 1).
    rewrite Hsub. split; reflexivity.
  - intros Hfin. apply float_not_finite in Hfin.
    destruct Hfin as [->|[->| ->]]; split; reflexivity.
Qed.
End ExactEstimate.

(** ** The standard error at each sample size *)

Section StandardErrors.
Context {T : Type} `{Scalar T}.
Variable NpRandom : Type.
Variable np_random_exponential : T -> NpRandom -> T * NpRandom.
Variable thinkstats2_Median : list T -> T.
Variable np_log_2 : T.

Lemma Estimate4_draws (n iters : nat) (g : NpRandom) :
  snd (Estimate4 np_random_exponential thinkstats2_Median np_log_2 n iters g) =
  snd (draw_n (np_random_exponential (s_of_nat 1 / s_of_nat 2)%sc) (iters * n) g).
Proof.
  unfold Estimate4. rewrite Estimate3_loop_trials. cbv beta iota zeta.
  apply trials_blocks.
Qed.

Lemma errs_body_step (iters : nat) (i : Z) (errs : list T) (g : NpRandom) :
  errs_body np_random_exponential thinkstats2_Median np_log_2 iters i (errs, g) =
  (errs ++ [fst (Estimate4 np_random_exponential thinkstats2_Median np_log_2
                           (Z.to_nat i) iters g)],
   snd (draw_n (np_random_exponential (s_of_nat 1 / s_of_nat 2)%sc)
               (iters * Z.to_nat i) g)).
Proof.
  rewrite <- Estimate4_draws. unfold errs_body.
  now destruct (Estimate4 _ _ _ (Z.to_nat i) iters g).
Qed.

Lemma errs_for_in (iters : nat) (idx : list Z) :
  forall errs g,
  exists new,
    for_in idx (errs_body np_random_exponential thinkstats2_Median np_log_2 iters)
           (errs, g) =
    (errs ++ new,
     snd (draw_n (np_random_exponential (s_of_nat 1 / s_of_nat 2)%sc)
                 (iters * list_sum (map Z.to_nat idx)) g)) /\
    length new = length idx.
Proof.
  unfold for_in. induction idx as [|i idx IH]; intros errs g.
  - exists []. simpl. now rewrite app_nil_r, Nat.mul_0_r.
  - cbn [fold_left]. rewrite errs_body_step.
    destruct (IH (errs ++ [fst (Estimate4 np_random_exponential thinkstats2_Median
                                          np_log_2 (Z.to_nat i) iters g)])
                 (snd (draw_n (np_random_exponential (s_of_nat 1 / s_of_nat 2)%sc)
                              (iters * Z.to_nat i) g)))
      as (new & Hrun & Hlen).
    eexists (_ :: new). rewrite Hrun. split; [|simpl; now rewrite Hlen].
    rewrite <- app_assoc. simpl map. simpl list_sum.
    rewrite Nat.mul_add_distr_l, (draw_n_app _ (iters * Z.to_nat i)).
    reflexivity.
Qed.

(** X14.  The scatter of standard error against sample size gets two
    sequences of 99 items each, one error for every size from 1 to 99, and
    making it draws [4950 * iters] variates, [n * iters] for each size
    [n]. *)
Theorem errs_one_per_sample_size (iters : nat) (g : NpRandom) :
  let '((ns, errs), g') :=
    errs_scatter np_random_exponential thinkstats2_Median np_log_2 iters g in
  ns = range 1 100 /\ length ns = 99 /\ length errs = 99 /\
  g' = snd (draw_n (np_random_exponential (s_of_nat 1 / s_of_nat 2)%sc)
                   (iters * 4950) g).
Proof.
  unfold errs_scatter, errs_loop.
  destruct (errs_for_in iters (range 1 100) [] g) as (new & -> & Hlen).
  cbv beta iota zeta. simpl app.
  repeat split. exact Hlen.
Qed.
End StandardErrors.

(** ** Instances of the further conditional statements *)

(** A generator that counts and one that plays back the record 0 .. 5
    deliver the same six variates, and so the same two samples of three. *)
Lemma same_variates_same_estimates_witness :
  fst (Estimate1_loop (fun _ _ => counting) (fun xs => nth 1 xs 0%float) 3 2 0%nat) =
  fst (Estimate1_loop (fun _ _ => replay) (fun xs => nth 1 xs 0%float) 3 2
                      [0; 1; 2; 3; 4; 5]%float)
  /\
  fst (Estimate1 (fun _ _ => counting) (fun xs => nth 1 xs 0%float) 3 2 0%nat) =
  fst (Estimate1 (fun _ _ => replay) (fun xs => nth 1 xs 0%float) 3 2
                 [0; 1; 2; 3; 4; 5]%float)
  /\
  fst (Estimate2_loop (fun _ _ => counting) 3 2 0%nat) =
  fst (Estimate2_loop (fun _ _ => replay) 3 2 [0; 1; 2; 3; 4; 5]%float)
  /\
  fst (Estimate2 (fun _ _ => counting) 3 2 0%nat) =
  fst (Estimate2 (fun _ _ => replay) 3 2 [0; 1; 2; 3; 4; 5]%float)
  /\
  fst (Estimate3_loop (fun _ => counting) (fun xs => nth 1 xs 0%float)
                      0x1.62e42fefa39efp-1%float 3 2 0%nat) =
  fst (Estimate3_loop (fun _ => replay) (fun xs => nth 1 xs 0%float)
                      0x1.62e42fefa39efp-1%float 3 2 [0; 1; 2; 3; 4; 5]%float)
  /\
  fst (SimulateSample (fun _ _ => counting) 90%float 7.5%float 3 2 0%nat) =
  fst (SimulateSample (fun _ _ => replay) 90%float 7.5%float 3 2
                      [0; 1; 2; 3; 4; 5]%float).
Proof.
  apply (@same_variates_same_estimates float _ nat (list float) nat (list float)
           (fun _ _ => counting) (fun _ _ => replay)
           (fun _ _ => counting) (fun _ _ => replay)
           (fun _ => counting) (fun _ => replay)
           (fun xs => nth 1 xs 0%float) (fun xs => nth 1 xs 0%float)
           0x1.62e42fefa39efp-1%float 3 2 90%float 7.5%float
           0%nat [0; 1; 2; 3; 4; 5]%float
           0%nat 0%nat [0; 1; 2; 3; 4; 5]%float [0; 1; 2; 3; 4; 5]%float);
    reflexivity.
Defined.

(** Two estimates that are both the true value 4. *)
Lemma RMSE_zero_iff_all_exact_witness :
  RMSE [4; 4]%R 4%R = 0%R <-> Forall (fun e => e = 4%R) [4; 4]%R.
Proof. apply RMSE_zero_iff_all_exact. discriminate. Defined.

(** The estimates 1, 2 and 6 of the true value 2. *)
Lemma MeanError_is_mean_less_actual_witness :
  MeanError [1; 2; 6]%R 2%R = (np.mean [1; 2; 6]%R - 2)%R.
Proof. apply MeanError_is_mean_less_actual. discriminate. Defined.

Lemma squared_RMSE_is_bias_plus_variance_witness :
  (RMSE [1; 2; 6]%R 2%R ^ 2 =
   MeanError [1; 2; 6]%R 2%R ^ 2 + np.var 0 [1; 2; 6]%R)%R.
Proof. apply squared_RMSE_is_bias_plus_variance. discriminate. Defined.

Lemma MeanError_within_RMSE_witness :
  (Rabs (MeanError [1; 2; 6]%R 2%R) <= RMSE [1; 2; 6]%R 2%R)%R.
Proof. apply MeanError_within_RMSE. discriminate. Defined.

(** Degrees Celsius to degrees Fahrenheit. *)
Lemma summaries_under_change_of_unit_witness :
  RMSE (map (fun e => 9 / 5 * e + 32)%R [20; 22]%R) (9 / 5 * 21 + 32)%R =
  (Rabs (9 / 5) * RMSE [20; 22]%R 21%R)%R
  /\
  MeanError (map (fun e => 9 / 5 * e + 32)%R [20; 22]%R) (9 / 5 * 21 + 32)%R =
  (9 / 5 * MeanError [20; 22]%R 21%R)%R.
Proof. apply summaries_under_change_of_unit. discriminate. Defined.

(** Estimates within 1 of the true value 21. *)
Lemma summaries_within_worst_error_witness :
  (RMSE [20; 22]%R 21%R <= 1 /\ Rabs (MeanError [20; 22]%R 21%R) <= 1)%R.
Proof.
  apply summaries_within_worst_error; [discriminate|].
  intros e [<-|[<-|[]]]; unfold Rabs; destruct (Rcase_abs _); lra.
Defined.

(** Two samples of three variates: 0, 1, 2 and 3, 4, 5. *)
Lemma Estimate2_biased_below_unbiased_witness :
  let '(estimates1, estimates2, _) :=
    Estimate2_loop (fun _ _ => counting (T:=R)) 3 2 0%nat in
  Forall2 (fun biased unbiased =>
             biased = ((INR 3 - 1) / INR 3 * unbiased)%R /\
             (0 <= biased <= unbiased)%R)
          estimates1 estimates2.
Proof.
  apply (Estimate2_biased_below_unbiased (fun _ _ => counting (T:=R)) (n:=3) 2 0%nat).
  lia.
Defined.

Lemma Estimate2_mean_errors_tied_witness :
  exists biased unbiased g',
    Estimate2 (fun _ _ => counting (T:=R)) 3 2 0%nat =
    ([Labelled "mean error biased" biased;
      Labelled "mean error unbiased" unbiased], g') /\
    biased = ((INR 3 - 1) / INR 3 * unbiased - 1 / INR 3)%R.
Proof.
  apply (Estimate2_mean_errors_tied (fun _ _ => counting (T:=R)) (n:=3) (iters:=2) 0%nat);
    lia.
Defined.

(** Three games: two goals and three draws, one and two, none and one. *)
Lemma ManyGames_draws_witness :
  length [2; 1; 0]%nat = length (range 1 4) /\
  [0.25]%float =
  snd (draw_n replay (list_sum [2; 1; 0]%nat + length [2; 1; 0]%nat)
              [0.5; 0.5; 0.5; 0.75; 0.5; 1.5; 0.25]%float).
Proof.
  apply (@ManyGames_draws float _ (list float) (fun _ => replay) 4 2%float
           (range 1 4) [0.5; 0.5; 0.5; 0.75; 0.5; 1.5; 0.25]%float).
  reflexivity.
Defined.

(** Goals three quarters and a whole game apart. *)
Lemma SimulateGame_goals_bounded_witness :
  exists L g',
    SimulateGame (fun _ : R => replay) 2 2%R [3 / 4; 1]%R = Some (L, g') /\
    (INR L * (3 / 4) <= 1)%R /\ (L < 2)%nat.
Proof.
  refine (proj2 (@SimulateGame_goals_bounded (list R) (fun _ : R => replay)
                                     2 2%R (3 / 4)%R [3 / 4; 1]%R _) _ _).
  - lra.
  - simpl. repeat constructor; lra.
  - simpl. lra.
Defined.
